(** * scripts/setup_dependencies.py: the dependency installer

    A shallow embedding of the script.  Python strings are [string]s and
    argument lists are [list string].  The file system is a tree of
    directories and files, and a file holds bytes.  The script opens its
    file in text mode: what [read] returns are the bytes decoded, with
    every line end turned into a line feed, and what [write] stores is
    the text with every line feed turned into [os.linesep], encoded.
    The effects of the script (printing, running external processes,
    file-system calls, [sys.exit], exceptions that nothing catches) live
    in a state-and-error monad over a [World] that records what was
    printed and run.

    What the host decides is left open: how [os.path.join] joins, which
    node a path string names, the encoding of the locale and
    [os.linesep], what a process does to the file system and which
    status it returns.  Characters are the code points below 256.
    Symbolic links, permissions, devices that fail and the parsing of
    the command line are not modelled: [main] starts from the parsed
    arguments. *)

From Stdlib Require Import List String Ascii ZArith Bool Arith Lia.
Import ListNotations.

Open Scope string_scope.
Open Scope list_scope.

(* ================================================================= *)
(** ** Python strings *)

(** [s[:n]] and [s[n:]]. *)
Fixpoint take (n : nat) (s : string) : string :=
  match n, s with
  | S k, String c s' => String c (take k s')
  | _, _ => EmptyString
  end.

Fixpoint drop (n : nat) (s : string) : string :=
  match n, s with
  | S k, String _ s' => drop k s'
  | _, _ => s
  end.

(** [all(p(c) for c in s)]. *)
Fixpoint all (p : ascii -> bool) (s : string) : bool :=
  match s with
  | EmptyString => true
  | String c s' => p c && all p s'
  end.

(** The first character of [s], if any, fails [p]. *)
Definition stops (p : ascii -> bool) (s : string) : bool :=
  match s with
  | EmptyString => true
  | String c _ => negb (p c)
  end.

(** [str.isspace] on one character, for the code points below 256:
    TAB, LF, VT, FF, CR, the separators FS GS RS US, SPACE, NEL and
    NO-BREAK SPACE. *)
Definition isspace (c : ascii) : bool :=
  let n := nat_of_ascii c in
  (((9 <=? n) && (n <=? 13)) || ((28 <=? n) && (n <=? 32))
   || (n =? 133) || (n =? 160))%nat.

(** The line feed, written [\n] in the script's string literals. *)
Definition LF : string := String (ascii_of_nat 10) EmptyString.

(** The characters line feed and carriage return, and the line end of
    Windows. *)
Definition lf : ascii := ascii_of_nat 10.
Definition cr : ascii := ascii_of_nat 13.
Definition CRLF : string := String cr LF.

(** [s.split('\n')]: the lines of a text. *)
Fixpoint lines (s : string) : list string :=
  match s with
  | EmptyString => [EmptyString]
  | String c s' =>
      if Ascii.eqb c lf then EmptyString :: lines s'
      else match lines s' with
           | l :: ls => String c l :: ls
           | [] => [String c EmptyString]
           end
  end.

Definition first_line (s : string) : string := hd EmptyString (lines s).
Definition last_line (s : string) : string := last (lines s) EmptyString.

(** No line feed in [s]: it lies on one line. *)
Definition no_line_break (s : string) : bool :=
  all (fun c => negb (Ascii.eqb c lf)) s.

(* ================================================================= *)
(** ** The [re] module, for the patterns the script uses

    [r'find_dependency\s*\(\s*fmt[^)]*\)'] is a sequence of literal
    characters and of greedy repetitions [*] of a character set.  The
    matcher is the backtracking one of [re]: a repetition first takes as
    many characters as it can and gives them back one at a time when the
    rest of the pattern fails. *)

Inductive charset : Type :=
| Whitespace                (* \s *)
| Except (c : ascii).       (* [^c] *)

Definition member (cs : charset) (c : ascii) : bool :=
  match cs with
  | Whitespace => isspace c
  | Except d => negb (Ascii.eqb c d)
  end.

Inductive item : Type :=
| Literal (c : ascii)
| Many (cs : charset).      (* cs* *)

Definition pattern := list item.

Fixpoint literal (s : string) : pattern :=
  match s with
  | EmptyString => []
  | String c s' => Literal c :: literal s'
  end.

(** [match_here p s] is the length of the match of [p] at the start of
    [s], as [re.match] finds it, or [None]. *)
Fixpoint match_here (p : pattern) (s : string) {struct p} : option nat :=
  match p with
  | [] => Some 0
  | Literal c :: p' =>
      match s with
      | String d s' =>
          if Ascii.eqb c d then option_map S (match_here p' s') else None
      | EmptyString => None
      end
  | Many cs :: p' =>
      (fix many (s : string) : option nat :=
         match s with
         | String d s' =>
             if member cs d then
               match many s' with
               | Some n => Some (S n)
               | None => match_here p' s
               end
             else match_here p' s
         | EmptyString => match_here p' s
         end) s
  end.

(** A replacement template: literal text and references to the whole
    match, [\g<0>]. *)
Inductive piece : Type :=
| Text (t : string)
| Group0.

Definition template := list piece.

Fixpoint expand (t : template) (m : string) : string :=
  match t with
  | [] => EmptyString
  | Text u :: t' => u ++ expand t' m
  | Group0 :: t' => m ++ expand t' m
  end.

(** [re.sub]: the scan moves left to right; at each position outside
    the previous match it tries the pattern, and on a match emits the
    expanded template and jumps to the end of the match.  [skip] counts
    the characters of the current match still to be jumped over. *)
Fixpoint sub_scan (p : pattern) (repl : template) (skip : nat) (s : string)
  {struct s} : string :=
  match skip with
  | S k =>
      match s with
      | EmptyString => EmptyString
      | String _ s' => sub_scan p repl k s'
      end
  | 0 =>
      match match_here p s with
      | Some n =>
          expand repl (take n s) ++
          match s with
          | EmptyString => EmptyString
          | String c s' =>
              match n with
              | 0 => String c (sub_scan p repl 0 s')
              | S k => sub_scan p repl k s'
              end
          end
      | None =>
          match s with
          | EmptyString => EmptyString
          | String c s' => String c (sub_scan p repl 0 s')
          end
      end
  end.

Definition re_sub (p : pattern) (repl : template) (s : string) : string :=
  sub_scan p repl 0 s.

(** The pieces [re.sub] cuts its input into: characters it copies and
    matches it replaces. *)
Inductive segment : Type :=
| Kept (text : string)
| Hit (text : string).

Definition seg_text (g : segment) : string :=
  match g with Kept t => t | Hit t => t end.

Definition seg_render (repl : template) (g : segment) : string :=
  match g with Kept t => t | Hit t => expand repl t end.

Fixpoint segments (p : pattern) (skip : nat) (s : string) {struct s}
  : list segment :=
  match skip with
  | S k =>
      match s with
      | EmptyString => []
      | String _ s' => segments p k s'
      end
  | 0 =>
      match match_here p s with
      | Some n =>
          Hit (take n s) ::
          match s with
          | EmptyString => []
          | String c s' =>
              match n with
              | 0 => Kept (String c EmptyString) :: segments p 0 s'
              | S k => segments p k s'
              end
          end
      | None =>
          match s with
          | EmptyString => []
          | String c s' => Kept (String c EmptyString) :: segments p 0 s'
          end
      end
  end.

Fixpoint join_all (l : list string) : string :=
  match l with
  | [] => EmptyString
  | t :: l' => t ++ join_all l'
  end.

(** The pattern and the template of [patch_thread_system_config]. *)
Definition find_dependency_fmt : pattern :=
  literal "find_dependency"
  ++ [Many Whitespace; Literal "("%char; Many Whitespace]
  ++ literal "fmt"
  ++ [Many (Except ")"%char); Literal ")"%char].

Definition comment_out : template := [Text "# "; Group0].

(** [new_content] as the script computes it from [content]. *)
Definition patch_content (content : string) : string :=
  re_sub find_dependency_fmt comment_out content.

(** A statement [find_dependency(fmt ...)]: white space [ws1] before the
    parenthesis and [ws2] after it, and arguments [args] that run to the
    closing parenthesis. *)
Definition statement (ws1 ws2 args : string) : string :=
  "find_dependency" ++ ws1 ++ "(" ++ ws2 ++ "fmt" ++ args ++ ")".

Definition is_statement (m : string) : Prop :=
  exists ws1 ws2 args,
    m = statement ws1 ws2 args
    /\ all isspace ws1 = true /\ all isspace ws2 = true
    /\ all (member (Except ")"%char)) args = true.

(** Some part of [content] is such a statement. *)
Definition has_statement (content : string) : Prop :=
  exists pre m post,
    is_statement m /\ content = (pre ++ m ++ post)%string.

(* ================================================================= *)
(** ** The file system

    A tree: a directory lists its entries in the order [os.scandir]
    reports them.  A path is resolved to the list of names that lead to
    it from the root. *)

#[local] Unset Elimination Schemes.
Inductive node : Type :=
| File (content : string)
| Dir (entries : list (string * node)).
#[local] Set Elimination Schemes.

Definition path := list string.

Inductive oserror : Type :=
| FileNotFoundError
| FileExistsError
| NotADirectoryError
| IsADirectoryError
| PermissionError.

Definition is_dir (t : node) : bool :=
  match t with Dir _ => true | File _ => false end.

Fixpoint entry (name : string) (es : list (string * node)) : option node :=
  match es with
  | [] => None
  | (n, x) :: es' => if String.eqb n name then Some x else entry name es'
  end.

(** Replace the entry called [name], or add it at the end. *)
Fixpoint set_entry (name : string) (x : node) (es : list (string * node))
  : list (string * node) :=
  match es with
  | [] => [(name, x)]
  | (n, y) :: es' =>
      if String.eqb n name then (n, x) :: es'
      else (n, y) :: set_entry name x es'
  end.

Definition remove_entry (name : string) (es : list (string * node))
  : list (string * node) :=
  filter (fun e => negb (String.eqb (fst e) name)) es.

Fixpoint lookup (q : path) (t : node) : option node :=
  match q with
  | [] => Some t
  | c :: q' =>
      match t with
      | Dir es =>
          match entry c es with
          | Some x => lookup q' x
          | None => None
          end
      | File _ => None
      end
  end.

(** [shutil.rmtree]: the path has to name a directory, which goes with
    all it holds; the root cannot be removed. *)
Fixpoint rmtree_at (q : path) (t : node) : oserror + node :=
  match q with
  | [] => inl PermissionError
  | c :: q' =>
      match t with
      | File _ => inl NotADirectoryError
      | Dir es =>
          match entry c es with
          | None => inl FileNotFoundError
          | Some x =>
              match q' with
              | [] =>
                  match x with
                  | Dir _ => inr (Dir (remove_entry c es))
                  | File _ => inl NotADirectoryError
                  end
              | _ :: _ =>
                  match rmtree_at q' x with
                  | inr x' => inr (Dir (set_entry c x' es))
                  | inl e => inl e
                  end
              end
          end
      end
  end.

(** The chain of new, empty directories [q] names. *)
Fixpoint fresh (q : path) : node :=
  match q with
  | [] => Dir []
  | c :: q' => Dir [(c, fresh q')]
  end.

(** [os.makedirs]: the missing directories on the way are created; the
    path itself must not exist, and nothing on the way may be a file. *)
Fixpoint makedirs_at (q : path) (t : node) : oserror + node :=
  match q with
  | [] => inl FileExistsError
  | c :: q' =>
      match t with
      | File _ => inl NotADirectoryError
      | Dir es =>
          match entry c es with
          | None => inr (Dir (set_entry c (fresh q') es))
          | Some x =>
              match makedirs_at q' x with
              | inr x' => inr (Dir (set_entry c x' es))
              | inl e => inl e
              end
          end
      end
  end.

(** The bytes of the file that [open(p, 'r')] opens. *)
Definition bytes_at (q : path) (t : node) : oserror + string :=
  match lookup q t with
  | Some (File s) => inr s
  | Some (Dir _) => inl IsADirectoryError
  | None => inl FileNotFoundError
  end.

(** The file at [q] gets the bytes [s]: a file that is there loses what
    it held, one that is not is created in its directory. *)
Fixpoint store_at (q : path) (s : string) (t : node) : oserror + node :=
  match q, t with
  | [], File _ => inr (File s)
  | [], Dir _ => inl IsADirectoryError
  | _ :: _, File _ => inl NotADirectoryError
  | c :: q', Dir es =>
      match entry c es with
      | Some x =>
          match store_at q' s x with
          | inr x' => inr (Dir (set_entry c x' es))
          | inl e => inl e
          end
      | None =>
          match q' with
          | [] => inr (Dir (set_entry c (File s) es))
          | _ :: _ => inl FileNotFoundError
          end
      end
  end.

(** *** Text mode

    Reading with [newline=None]: after decoding, each line end CR LF
    and each CR left is turned into LF. *)
Fixpoint universal_newlines (s : string) : string :=
  match s with
  | EmptyString => EmptyString
  | String c s' =>
      if Ascii.eqb c cr then
        String lf
          match s' with
          | String d s'' =>
              if Ascii.eqb d lf then universal_newlines s''
              else universal_newlines s'
          | EmptyString => EmptyString
          end
      else String c (universal_newlines s')
  end.

(** Writing with [newline=None]: before encoding, each LF is turned
    into [os.linesep]. *)
Fixpoint with_linesep (linesep s : string) : string :=
  match s with
  | EmptyString => EmptyString
  | String c s' =>
      if Ascii.eqb c lf then linesep ++ with_linesep linesep s'
      else String c (with_linesep linesep s')
  end.

(** No carriage return in [s]. *)
Definition no_cr (s : string) : bool :=
  all (fun c => negb (Ascii.eqb c cr)) s.

(** The names [os.walk] reports for one directory. *)
Definition dirnames (es : list (string * node)) : list string :=
  map fst (filter (fun e => is_dir (snd e)) es).

Definition filenames (es : list (string * node)) : list string :=
  map fst (filter (fun e => negb (is_dir (snd e))) es).

(** Some file called [name] lies in [t], at any depth. *)
Fixpoint has_file (name : string) (t : node) : bool :=
  match t with
  | File _ => false
  | Dir es =>
      existsb (String.eqb name) (filenames es)
      || existsb (fun e => has_file name (snd e)) es
  end.

(** Induction on a tree, with the property at hand for every entry of a
    directory. *)
Fixpoint node_induction (P : node -> Prop)
  (HF : forall s, P (File s))
  (HD : forall es, Forall (fun e => P (snd e)) es -> P (Dir es))
  (t : node) : P t :=
  match t with
  | File s => HF s
  | Dir es =>
      HD es
        ((fix go (es : list (string * node))
            : Forall (fun e => P (snd e)) es :=
            match es with
            | [] => Forall_nil _
            | e :: es' =>
                Forall_cons e (node_induction P HF HD (snd e)) (go es')
            end) es)
  end.

(* ================================================================= *)
(** ** Effects *)

(** The exceptions of the calls the script makes: that of [check_call]
    for a status other than 0, those of the operating system, and the
    two [ValueError]s of a strict codec. *)
Inductive exn : Type :=
| CalledProcessError (cmd : list string) (returncode : Z)
| OSError (e : oserror)
| UnicodeDecodeError
| UnicodeEncodeError.

(** What launching a process gives: its exit status, or the error that
    kept it from starting. *)
Inductive proc_result : Type :=
| Exited (status : Z)
| NotStarted (e : oserror).

Inductive event : Type :=
| Print (line : string)
| Spawn (cmd : list string) (dir : string) (r : proc_result).

Record World : Type := mkWorld {
  fs : node;             (* the file system *)
  cwd : string;          (* os.getcwd() *)
  spawned : nat;         (* processes launched so far *)
  trace : list event     (* what the script printed and ran, oldest first *)
}.

(** How a piece of the script ends: it returns, it calls [sys.exit], or
    an exception leaves it. *)
Inductive outcome (A : Type) : Type :=
| Ret (a : A)
| Exit (code : Z)
| Raise (e : exn).

Arguments Ret {A} a.
Arguments Exit {A} code.
Arguments Raise {A} e.

Definition M (A : Type) : Type := World -> outcome A * World.

Definition ret {A} (a : A) : M A := fun w => (Ret a, w).

Definition bind {A B} (m : M A) (f : A -> M B) : M B :=
  fun w =>
    match m w with
    | (Ret a, w') => f a w'
    | (Exit c, w') => (Exit c, w')
    | (Raise e, w') => (Raise e, w')
    end.

Declare Scope script_scope.
Delimit Scope script_scope with script.
Notation "x <- m ;; k" := (bind m (fun x => k))
  (at level 100, m at next level, right associativity) : script_scope.
Notation "m ;; k" := (bind m (fun _ => k))
  (at level 100, right associativity) : script_scope.

(** [try: m  except <the exceptions h takes>: h e]. *)
Definition try_except {A} (m : M A) (h : exn -> option (M A)) : M A :=
  fun w =>
    match m w with
    | (Raise e, w') =>
        match h e with
        | Some k => k w'
        | None => (Raise e, w')
        end
    | r => r
    end.

Definition sys_exit {A} (code : Z) : M A := fun w => (Exit code, w).

Definition emit (e : event) (w : World) : World :=
  mkWorld (fs w) (cwd w) (spawned w) (trace w ++ [e]).

Definition print (line : string) : M unit :=
  fun w => (Ret tt, emit (Print line) w).

Definition getcwd : M string := fun w => (Ret (cwd w), w).

Definition set_fs (t : node) (w : World) : World :=
  mkWorld t (cwd w) (spawned w) (trace w).

Definition lift_fs (r : oserror + node) : M unit :=
  fun w =>
    match r with
    | inr t => (Ret tt, set_fs t w)
    | inl e => (Raise (OSError e), w)
    end.

(** The status of the interpreter when the script ends this way. *)
Definition exit_status {A} (o : outcome A) : Z :=
  match o with
  | Ret _ => 0
  | Exit c => c
  | Raise _ => 1
  end.

(** The command-line arguments after [parse_args]. *)
Record Args : Type := mkArgs {
  build_type : string;
  install_prefix : string;
  compiler : string;
  os : string
}.

Definition truthy (s : string) : bool :=
  match s with EmptyString => false | _ => true end.

(** [['cmake', '-B', '.', '-S', '..'] + [arg for arg in cmake_args if arg]] *)
Definition cmd_cmake (cmake_args : list string) : list string :=
  ["cmake"; "-B"; "."; "-S"; ".."] ++ filter truthy cmake_args.

(** [l[-1] = x] on a list that has a last element. *)
Fixpoint set_last (l : list string) (x : string) : list string :=
  match l with
  | [] => []
  | [_] => [x]
  | y :: l' => y :: set_last l' x
  end.

Definition config_name : string := "thread_system-config.cmake".

(* ================================================================= *)
(** ** Checks that compute *)

(** The pattern matches at none of the first [n] positions of [s]. *)
Fixpoint misses (p : pattern) (n : nat) (s : string) : bool :=
  match n with
  | 0 => true
  | S k =>
      match match_here p s with
      | Some _ => false
      | None =>
          match s with
          | EmptyString => true
          | String _ s' => misses p k s'
          end
      end
  end.

(* ================================================================= *)
(** ** A POSIX host and some worlds, for examples *)

Fixpoint ends_with (c : ascii) (s : string) : bool :=
  match s with
  | EmptyString => false
  | String d EmptyString => Ascii.eqb c d
  | String _ s' => ends_with c s'
  end.

(** [posixpath.join] of two paths. *)
Definition posix_join (a b : string) : string :=
  if String.prefix "/" b then b
  else if negb (truthy a) || ends_with "/" a then a ++ b
  else a ++ "/" ++ b.

(** The names between the slashes of [s]; [name] is the one being read. *)
Fixpoint split_slash (s name : string) : list string :=
  match s with
  | EmptyString => [name]
  | String c s' =>
      if Ascii.eqb c "/" then name :: split_slash s' EmptyString
      else split_slash s' (name ++ String c EmptyString)
  end.

(** Empty names and [.] are dropped, [..] goes one name back; [stack]
    holds the names so far, the last one first. *)
Fixpoint normalize (names : list string) (stack : path) : path :=
  match names with
  | [] => rev stack
  | n :: names' =>
      if String.eqb n "" || String.eqb n "." then normalize names' stack
      else if String.eqb n ".." then normalize names' (tl stack)
      else normalize names' (n :: stack)
  end.

(** The node a path names, for a process that runs in the root. *)
Definition posix_resolve (p : string) : path :=
  normalize (split_slash p EmptyString) [].

Definition exn_text (e : exn) : string :=
  match e with
  | CalledProcessError _ _ => "Command returned non-zero exit status."
  | OSError _ => "OSError"
  | UnicodeDecodeError => "codec can't decode byte"
  | UnicodeEncodeError => "codec can't encode character"
  end.

(** The codec [ascii]: the bytes and the characters below 128, each as
    itself. *)
Definition is_ascii (c : ascii) : bool := (nat_of_ascii c <? 128)%nat.

Definition ascii_codec (s : string) : option string :=
  if all is_ascii s then Some s else None.

(** Processes that all return 0 and leave the file system as it is, and
    processes of which the one of rank [k] returns [status]. *)
Definition all_succeed (i : nat) (cmd : list string) (dir : string)
  (t : node) : proc_result * node :=
  (Exited 0, t).

Definition fails_at (k : nat) (status : Z) (i : nat) (cmd : list string)
  (dir : string) (t : node) : proc_result * node :=
  (if Nat.eqb i k then Exited status else Exited 0, t).

Definition stale_build : node := Dir [("CMakeCache.txt", File "stale")].

Definition sources (build_entry : list (string * node)) : node :=
  Dir (("CMakeLists.txt", File "project(dep)") :: build_entry).

Definition config_text : string :=
  "include(CMakeFindDependencyMacro)" ++ LF
  ++ "find_dependency (fmt 10 REQUIRED)" ++ LF
  ++ "find_dependency(Threads)" ++ LF.

(** The same text with the line ends of Windows, and a text without a
    statement that has them. *)
Definition config_text_crlf : string :=
  "include(CMakeFindDependencyMacro)" ++ CRLF
  ++ "find_dependency (fmt 10 REQUIRED)" ++ CRLF
  ++ "find_dependency(Threads)" ++ CRLF.

Definition plain_text_crlf : string := "find_dependency(Threads)" ++ CRLF.

Definition config_path : string :=
  "/opt/thread_system_install/lib/cmake/thread_system/thread_system-config.cmake".

Definition install_tree (files : list (string * node)) : node :=
  Dir [("include", Dir []);
       ("lib", Dir [("cmake", Dir [("thread_system", Dir files)])])].

(** A workspace [/ws] that holds the sources of the three dependencies,
    those of [thread_system] with [thread_build] as their [build] entry,
    and an install prefix [/opt] with the tree of [thread_system]. *)
Definition disk (thread_build : node) (thread_files : list (string * node))
  : node :=
  Dir [("ws",
        Dir [("common_system", sources [("build", stale_build)]);
             ("thread_system", sources [("build", thread_build)]);
             ("logger_system", sources [])]);
       ("opt", Dir [("thread_system_install", install_tree thread_files)])].

Definition boot (t : node) : World := mkWorld t "/ws" 0 [].

Definition linux_gcc : Args := mkArgs "Release" "/opt" "gcc" "Linux".
Definition windows_msvc : Args := mkArgs "Debug" "/opt" "msvc" "Windows".

Section Script.

(** What the host decides: how [os.path.join] joins, which node of the
    tree a path string names, what [str] of an exception prints, and what
    the [k]-th process does: from its arguments, its directory and the
    file system it finds, its result and the file system it leaves. *)
Variable path_join : string -> string -> string.
Variable resolve : string -> path.
Variable exn_str : exn -> string.
Variable spawn : nat -> list string -> string -> node -> proc_result * node.

(** The encoding of the locale, which [open] takes when none is given:
    the text that bytes decode to and the bytes that a text encodes to,
    if any; and [os.linesep]. *)
Variable decode : string -> option string.
Variable encode : string -> option string.
Variable linesep : string.

(** [os.path.exists(p)] in the world [w]. *)
Definition present (p : string) (w : World) : bool :=
  match lookup (resolve p) (fs w) with
  | Some _ => true
  | None => false
  end.

Definition path_exists (p : string) : M bool :=
  fun w => (Ret (present p w), w).

Definition rmtree (p : string) : M unit :=
  fun w => lift_fs (rmtree_at (resolve p) (fs w)) w.

Definition makedirs (p : string) : M unit :=
  fun w => lift_fs (makedirs_at (resolve p) (fs w)) w.

(** [with open(p, 'r') as f: content = f.read()]. *)
Definition read_file (p : string) : M string :=
  fun w =>
    match bytes_at (resolve p) (fs w) with
    | inl e => (Raise (OSError e), w)
    | inr bytes =>
        match decode bytes with
        | Some text => (Ret (universal_newlines text), w)
        | None => (Raise UnicodeDecodeError, w)
        end
    end.

(** [with open(p, 'w') as f: f.write(s)]: [open] creates the file or
    empties it; [write] encodes and the bytes are in the file when it is
    closed.  A text that does not encode leaves the file empty. *)
Definition write_file (p s : string) : M unit :=
  fun w =>
    match store_at (resolve p) EmptyString (fs w) with
    | inl e => (Raise (OSError e), w)
    | inr opened =>
        match encode (with_linesep linesep s) with
        | Some bytes =>
            lift_fs (store_at (resolve p) bytes opened) (set_fs opened w)
        | None => (Raise UnicodeEncodeError, set_fs opened w)
        end
    end.

(** [os.walk], top down: a directory, then the directories in it. *)
Fixpoint walk (top : string) (t : node)
  : list (string * list string * list string) :=
  match t with
  | File _ => []
  | Dir es =>
      (top, dirnames es, filenames es)
      :: flat_map
           (fun e =>
              match snd e with
              | Dir _ => walk (path_join top (fst e)) (snd e)
              | File _ => []
              end) es
  end.

(** What [os.walk(top)] yields in the world [w]; a [top] that is no
    directory yields nothing. *)
Definition walked (top : string) (w : World)
  : list (string * list string * list string) :=
  match lookup (resolve top) (fs w) with
  | Some t => walk top t
  | None => []
  end.

Definition os_walk (top : string)
  : M (list (string * list string * list string)) :=
  fun w => (Ret (walked top w), w).

(** [subprocess.check_call(command, cwd=dir)]. *)
Definition check_call (command : list string) (dir : string) : M unit :=
  fun w =>
    let (r, t) := spawn (spawned w) command dir (fs w) in
    let ran t' :=
      mkWorld t' (cwd w) (S (spawned w))
        (trace w ++ [Spawn command dir r]) in
    match r with
    | Exited 0 => (Ret tt, ran t)
    | Exited n => (Raise (CalledProcessError command n), ran t)
    | NotStarted e => (Raise (OSError e), ran (fs w))
    end.

Definition run_command (command : list string) (dir : string) : M unit :=
  (print ("Running: " ++ String.concat " " command) ;;
   try_except (check_call command dir)
     (fun e =>
        match e with
        | CalledProcessError _ _ =>
            Some (print ("Error running command: " ++ exn_str e) ;;
                  sys_exit 1)
        | _ => None
        end))%script.

(** The five parts of [setup_dependency], named after its comments. *)
Definition checkout (name repo_url workspace_dir : string) : M unit :=
  (let repo_dir := path_join workspace_dir name in
   present <- path_exists repo_dir ;;
   if negb present
   then run_command ["git"; "clone"; repo_url; name] workspace_dir
   else ret tt)%script.

Definition make_build_dir (build_dir : string) : M unit :=
  (present <- path_exists build_dir ;;
   (if present then rmtree build_dir else ret tt) ;;
   makedirs build_dir)%script.

Definition configure (cmake_args : list string) (build_dir : string)
  : M unit :=
  run_command (cmd_cmake cmake_args) build_dir.

Definition build (build_type build_dir : string) : M unit :=
  run_command ["cmake"; "--build"; "."; "--config"; build_type; "--parallel"]
    build_dir.

Definition install (build_type build_dir : string) : M unit :=
  run_command ["cmake"; "--install"; "."; "--config"; build_type] build_dir.

Definition setup_dependency
  (name repo_url install_dir build_type : string)
  (cmake_args : list string) (workspace_dir : string) : M unit :=
  (print ("=== Setting up " ++ name ++ " ===") ;;
   checkout name repo_url workspace_dir ;;
   let build_dir := path_join (path_join workspace_dir name) "build" in
   make_build_dir build_dir ;;
   configure cmake_args build_dir ;;
   build build_type build_dir ;;
   install build_type build_dir ;;
   print ("=== " ++ name ++ " setup complete ===" ++ LF))%script.

(** The loop over [os.walk] of [patch_thread_system_config]. *)
Fixpoint find_config (l : list (string * list string * list string))
  : option string :=
  match l with
  | [] => None
  | (root, _, files) :: l' =>
      if existsb (String.eqb config_name) files
      then Some (path_join root config_name)
      else find_config l'
  end.

Definition patch_thread_system_config (install_dir : string)
  (is_windows : bool) : M unit :=
  (print "Patching thread_system-config.cmake..." ;;
   found <- os_walk install_dir ;;
   match find_config found with
   | Some (String c f as config_file) =>
       print ("Found config file: " ++ config_file) ;;
       content <- read_file config_file ;;
       let new_content := patch_content content in
       write_file config_file new_content ;;
       print "Patched config file successfully."
   | _ => print "Warning: thread_system-config.cmake not found"
   end)%script.

Definition base_cmake_args (args : Args) : list string :=
  [("-DCMAKE_BUILD_TYPE=" ++ build_type args)%string;
   "-DBUILD_TESTS=OFF";
   "-DBUILD_SAMPLES=OFF";
   "-DUSE_STD_FORMAT=ON"]
  ++ (if String.eqb (os args) "Linux" && String.eqb (compiler args) "gcc"
      then ["-DCMAKE_C_COMPILER=gcc-13"; "-DCMAKE_CXX_COMPILER=g++-13"]
      else []).

Definition common_install (args : Args) : string :=
  path_join (install_prefix args) "common_system_install".

Definition thread_install (args : Args) : string :=
  path_join (install_prefix args) "thread_system_install".

Definition logger_install (args : Args) : string :=
  path_join (install_prefix args) "logger_system_install".

Definition common_args (args : Args) : list string :=
  base_cmake_args args
  ++ [("-DCMAKE_INSTALL_PREFIX=" ++ common_install args)%string].

Definition thread_args (args : Args) : list string :=
  let thread_args :=
    base_cmake_args args
    ++ [("-DCMAKE_INSTALL_PREFIX=" ++ thread_install args)%string;
        ("-DCMAKE_PREFIX_PATH=" ++ common_install args)%string;
        ("-DCMAKE_CXX_FLAGS=-I" ++ common_install args ++ "/include")%string]
  in
  if String.eqb (os args) "Windows"
  then set_last thread_args
         ("-DCMAKE_CXX_FLAGS=/I" ++ common_install args ++ "/include")
  else thread_args.

Definition cxx_flags (args : Args) : string :=
  if String.eqb (os args) "Windows"
  then "/I" ++ common_install args ++ "/include /I"
       ++ thread_install args ++ "/include"
  else "-I" ++ common_install args ++ "/include -I"
       ++ thread_install args ++ "/include".

Definition logger_args (args : Args) : list string :=
  (base_cmake_args args
   ++ [("-DCMAKE_INSTALL_PREFIX=" ++ logger_install args)%string;
       ("-DCMAKE_PREFIX_PATH=" ++ common_install args ++ ";"
        ++ thread_install args)%string])
  ++ [("-DCMAKE_CXX_FLAGS=" ++ cxx_flags args)%string].

Definition common_url : string := "https://github.com/kcenon/common_system.git".
Definition thread_url : string := "https://github.com/kcenon/thread_system.git".
Definition logger_url : string := "https://github.com/kcenon/logger_system.git".

Definition setup_common (args : Args) (workspace_dir : string) : M unit :=
  setup_dependency "common_system" common_url (common_install args)
    (build_type args) (common_args args) workspace_dir.

Definition setup_thread (args : Args) (workspace_dir : string) : M unit :=
  setup_dependency "thread_system" thread_url (thread_install args)
    (build_type args) (thread_args args) workspace_dir.

Definition setup_logger (args : Args) (workspace_dir : string) : M unit :=
  setup_dependency "logger_system" logger_url (logger_install args)
    (build_type args) (logger_args args) workspace_dir.

(** [main], after [parse_args] has produced [args]. *)
Definition main (args : Args) : M unit :=
  (workspace_dir <- getcwd ;;
   setup_common args workspace_dir ;;
   setup_thread args workspace_dir ;;
   patch_thread_system_config (thread_install args)
     (String.eqb (os args) "Windows") ;;
   setup_logger args workspace_dir)%script.

(** *** What a run leaves in the trace

    The events of a run that goes through are fixed up to what the file
    system decides: whether a dependency has to be cloned, and whether a
    configuration file is found. *)

Definition running (cmd : list string) : event :=
  Print ("Running: " ++ String.concat " " cmd).

Definition step_ok (cmd : list string) (dir : string) : list event :=
  [running cmd; Spawn cmd dir (Exited 0)].

Definition clone_cmd (repo_url name : string) : list string :=
  ["git"; "clone"; repo_url; name].

Definition build_cmd (build_type : string) : list string :=
  ["cmake"; "--build"; "."; "--config"; build_type; "--parallel"].

Definition install_cmd (build_type : string) : list string :=
  ["cmake"; "--install"; "."; "--config"; build_type].

Definition build_dir_of (workspace_dir name : string) : string :=
  path_join (path_join workspace_dir name) "build".

Definition dependency_plan (clone : bool) (name repo_url build_type : string)
  (cmake_args : list string) (workspace_dir : string) : list event :=
  let build_dir := build_dir_of workspace_dir name in
  [Print ("=== Setting up " ++ name ++ " ===")]
  ++ (if clone then step_ok (clone_cmd repo_url name) workspace_dir else [])
  ++ step_ok (cmd_cmake cmake_args) build_dir
  ++ step_ok (build_cmd build_type) build_dir
  ++ step_ok (install_cmd build_type) build_dir
  ++ [Print ("=== " ++ name ++ " setup complete ===" ++ LF)].

Definition patch_plan (found : option string) : list event :=
  Print "Patching thread_system-config.cmake..."
  :: match found with
     | Some config_file =>
         [Print ("Found config file: " ++ config_file);
          Print "Patched config file successfully."]
     | None => [Print "Warning: thread_system-config.cmake not found"]
     end.

Definition main_plan (args : Args) (workspace_dir : string)
  (clone1 clone2 clone3 : bool) (found : option string) : list event :=
  dependency_plan clone1 "common_system" common_url (build_type args)
    (common_args args) workspace_dir
  ++ dependency_plan clone2 "thread_system" thread_url (build_type args)
       (thread_args args) workspace_dir
  ++ patch_plan found
  ++ dependency_plan clone3 "logger_system" logger_url (build_type args)
       (logger_args args) workspace_dir.

(** How a run that does not go through ends, where [rest] is what was
    left of its plan: a process fails, which prints the error and exits
    with 1; a process cannot be started; or a file-system call or the
    codec raises. *)
Inductive Stopped : list event -> outcome unit -> list event -> Prop :=
| stop_failed cmd dir n rest :
    n <> 0%Z ->
    Stopped (Spawn cmd dir (Exited 0) :: rest) (Exit 1)
      [Spawn cmd dir (Exited n);
       Print ("Error running command: "
              ++ exn_str (CalledProcessError cmd n))]
| stop_not_started cmd dir e rest :
    Stopped (Spawn cmd dir (Exited 0) :: rest) (Raise (OSError e))
      [Spawn cmd dir (NotStarted e)]
| stop_raised e rest :
    Stopped rest (Raise (OSError e)) []
| stop_undecoded rest :
    Stopped rest (Raise UnicodeDecodeError) []
| stop_unencoded rest :
    Stopped rest (Raise UnicodeEncodeError) [].

(** The events [new] of a run that ends with [o] follow [plan]. *)
Definition Follows (plan : list event) (o : outcome unit) (new : list event)
  : Prop :=
  (o = Ret tt /\ new = plan)
  \/ (exists done rest stop,
        plan = done ++ rest /\ new = done ++ stop /\ Stopped rest o stop).

Definition Traces (m : M unit) (w : World) (plan : list event) : Prop :=
  exists new,
    trace (snd (m w)) = trace w ++ new /\ Follows plan (fst (m w)) new.

(** The world after the patch step has announced itself and then warned,
    or named the file it found. *)
Definition warned (w : World) : World :=
  emit (Print "Warning: thread_system-config.cmake not found")
    (emit (Print "Patching thread_system-config.cmake...") w).

Definition announced (config_file : string) (w : World) : World :=
  emit (Print ("Found config file: " ++ config_file))
    (emit (Print "Patching thread_system-config.cmake...") w).

(** The three dependencies, in the order [main] sets them up. *)
Definition dependencies (args : Args) : list (string * string * list string) :=
  [("common_system", common_url, common_args args);
   ("thread_system", thread_url, thread_args args);
   ("logger_system", logger_url, logger_args args)].

(** The two flags that pin the compiler. *)
Definition pin_c : string := "-DCMAKE_C_COMPILER=gcc-13".
Definition pin_cxx : string := "-DCMAKE_CXX_COMPILER=g++-13".

(** A configure command, as [setup_dependency] builds it. *)
Definition is_configure (cmd : list string) : Prop :=
  exists rest, cmd = "cmake" :: "-B" :: rest.

(** No name on the way to [q] is a file. *)
Definition no_file_on (q : path) (t : node) : Prop :=
  forall k s, lookup (firstn k q) t <> Some (File s).

(** [q] names a directory below the root, or it names nothing and no
    file stands in the way of it. *)
Definition dir_or_absent (q : path) (t : node) : Prop :=
  (q <> [] /\ exists es, lookup q t = Some (Dir es))
  \/ (lookup q t = None /\ no_file_on q t).

(** What [setup_dependency] does once the build directory is there. *)
Definition configure_build_install (name build_type : string)
  (cmake_args : list string) (build_dir : string) : M unit :=
  (configure cmake_args build_dir ;;
   build build_type build_dir ;;
   install build_type build_dir ;;
   print ("=== " ++ name ++ " setup complete ===" ++ LF))%script.

(** No file called [config_name] lies under [install_dir]. *)
Definition no_config_under (install_dir : string) (w : World) : Prop :=
  match lookup (resolve install_dir) (fs w) with
  | Some t => has_file config_name t = false
  | None => True
  end.

(** Decides that an event is not in a plan, by going through the plan. *)
Ltac not_in_plan :=
  unfold dependency_plan, patch_plan, step_ok, running;
  rewrite ?in_app_iff; cbn [app In];
  repeat match goal with
         | |- context [if ?b then _ else _] => destruct b
         | |- context [match ?f with Some _ => _ | None => _ end] =>
             destruct f
         end;
  cbn [app In];
  intro;
  repeat match goal with
         | H : _ \/ _ |- _ => destruct H as [H|H]
         | H : False |- _ => contradiction
         | H : Print _ = Print _ |- _ => discriminate H
         | H : Spawn _ _ _ = Print _ |- _ => discriminate H
         end.

(** *** Further notions *)

(** How many statements [re.sub] replaces in [content]. *)
Definition is_hit (g : segment) : bool :=
  match g with Hit _ => true | Kept _ => false end.

Definition hits (content : string) : nat :=
  List.length (filter is_hit (segments find_dependency_fmt 0 content)).

(** How many processes a trace has launched. *)
Definition is_spawn (e : event) : bool :=
  match e with Spawn _ _ _ => true | Print _ => false end.

Definition count_spawns (l : list event) : nat :=
  List.length (filter is_spawn l).

(** Two paths part at some name: neither lies on the way to the other. *)
Inductive diverges : path -> path -> Prop :=
| diverges_here c d q q' : c <> d -> diverges (c :: q) (d :: q')
| diverges_below c q q' : diverges q q' -> diverges (c :: q) (c :: q').

(** Every process of a trace is launched right after the line that
    announces it. *)
Definition each_spawn_announced (l : list event) : Prop :=
  forall pre cmd dir r post,
    l = pre ++ Spawn cmd dir r :: post ->
    exists pre', pre = pre' ++ [running cmd].

(** The flags that every dependency is configured with. *)
Definition common_flags (args : Args) : list string :=
  [("-DCMAKE_BUILD_TYPE=" ++ build_type args)%string;
   "-DBUILD_TESTS=OFF"; "-DBUILD_SAMPLES=OFF"; "-DUSE_STD_FORMAT=ON"].

(** Processes of which the one of rank [k] cannot be started: the
    program is not installed. *)
Definition missing_at (k : nat) (i : nat) (cmd : list string)
  (dir : string) (t : node) : proc_result * node :=
  (if Nat.eqb i k then NotStarted FileNotFoundError else Exited 0, t).

(** Bytes that the codec [ascii] does not decode: a statement and then
    the byte 255. *)
Definition undecodable : string :=
  "find_dependency(fmt)" ++ String (ascii_of_nat 255) EmptyString.
(* ================================================================= *)
(** * Properties *)

(** ** Strings *)

Lemma append_assoc (a b c : string) :
  ((a ++ b) ++ c)%string = (a ++ (b ++ c))%string.
Proof. induction a as [|x a IH]; simpl; [reflexivity | now rewrite IH]. Qed.

Lemma append_nil_r (a : string) : (a ++ "")%string = a.
Proof. induction a as [|x a IH]; simpl; [reflexivity | now rewrite IH]. Qed.

Lemma length_append (a b : string) :
  String.length (a ++ b) = String.length a + String.length b.
Proof. induction a as [|x a IH]; simpl; [reflexivity | now rewrite IH]. Qed.

Lemma take_append (a b : string) : take (String.length a) (a ++ b) = a.
Proof. induction a as [|x a IH]; simpl; [now destruct b | now rewrite IH]. Qed.

Lemma drop_append (a b : string) : drop (String.length a) (a ++ b) = b.
Proof. induction a as [|x a IH]; simpl; [now destruct b | exact IH]. Qed.

Lemma take_drop (n : nat) (s : string) : (take n s ++ drop n s)%string = s.
Proof.
  revert s; induction n as [|n IH]; intros [|c s]; simpl; try reflexivity.
  now rewrite IH.
Qed.

Lemma drop_0 (s : string) : drop 0 s = s.
Proof. now destruct s. Qed.

Lemma drop_nil (n : nat) : drop n "" = "".
Proof. now destruct n. Qed.

Lemma all_append (p : ascii -> bool) (a b : string) :
  all p (a ++ b) = all p a && all p b.
Proof.
  induction a as [|x a IH]; simpl; [reflexivity|].
  now rewrite IH, andb_assoc.
Qed.

Lemma all_take (p : ascii -> bool) : forall n s,
  all p s = true -> all p (take n s) = true.
Proof.
  induction n as [|n IH]; intros [|c s] H; simpl; try reflexivity.
  simpl in H. apply andb_true_iff in H as [Hc Hs].
  now rewrite Hc, IH.
Qed.

Lemma take_app_le : forall n a b,
  n <= String.length a -> take n (a ++ b) = take n a.
Proof.
  induction n as [|n IH]; intros a b H.
  - now destruct a, b.
  - destruct a as [|c a]; simpl in H; [lia|].
    simpl. f_equal. apply IH. lia.
Qed.

Lemma drop_app_le : forall n a b,
  n <= String.length a -> drop n (a ++ b) = (drop n a ++ b)%string.
Proof.
  induction n as [|n IH]; intros a b H.
  - now rewrite !drop_0.
  - destruct a as [|c a]; simpl in H; [lia|].
    simpl. apply IH. lia.
Qed.

Lemma length_take : forall n s,
  n <= String.length s -> String.length (take n s) = n.
Proof.
  induction n as [|n IH]; intros [|c s] H; simpl in *; try lia.
  rewrite IH; lia.
Qed.

Lemma length_drop : forall n s,
  String.length (drop n s) = String.length s - n.
Proof.
  induction n as [|n IH]; intros [|c s]; simpl; try reflexivity.
  apply IH.
Qed.

Lemma join_all_app (l1 l2 : list string) :
  join_all (l1 ++ l2) = (join_all l1 ++ join_all l2)%string.
Proof.
  induction l1 as [|t l1 IH]; simpl; [reflexivity|].
  now rewrite IH, append_assoc.
Qed.

(** ** Lines and line ends *)

Lemma lines_cons (s : string) : exists l ls, lines s = l :: ls.
Proof.
  induction s as [|c s (l & ls & E)]; simpl; [eauto|].
  destruct (Ascii.eqb c lf); [eauto|]. rewrite E. eauto.
Qed.

Lemma lines_one (x post : string) :
  no_line_break x = true ->
  lines (x ++ post) = (x ++ first_line post)%string :: tl (lines post).
Proof.
  unfold first_line. induction x as [|c x IH]; intros H.
  - simpl. now destruct (lines_cons post) as (l & ls & ->).
  - simpl in H. apply andb_true_iff in H as [Hc Hx].
    apply negb_true_iff in Hc. simpl. now rewrite Hc, (IH Hx).
Qed.

Lemma lines_app (a b : string) :
  lines (a ++ b)
  = removelast (lines a)
    ++ (last_line a ++ first_line b)%string :: tl (lines b).
Proof.
  unfold last_line, first_line. induction a as [|c a IH].
  - simpl. now destruct (lines_cons b) as (l & ls & ->).
  - simpl String.append. simpl lines.
    destruct (lines_cons a) as (l & ls & E).
    destruct (Ascii.eqb c lf).
    + rewrite IH, E. reflexivity.
    + rewrite IH, E. destruct ls as [|l2 ls]; reflexivity.
Qed.

(** The line of [x] in a text, when [x] lies on one line. *)
Lemma lines_around (pre x post : string) :
  no_line_break x = true ->
  lines (pre ++ x ++ post)
  = removelast (lines pre)
    ++ (last_line pre ++ x ++ first_line post)%string :: tl (lines post).
Proof.
  intros H. rewrite lines_app. unfold first_line at 1.
  now rewrite (lines_one _ _ H).
Qed.

Lemma universal_newlines_no_cr : forall n s,
  String.length s <= n -> no_cr (universal_newlines s) = true.
Proof.
  unfold no_cr. induction n as [|n IH]; intros [|c s] H;
    simpl in *; try reflexivity; try lia.
  destruct (Ascii.eqb c cr) eqn:E.
  - simpl. destruct s as [|d s]; [reflexivity|].
    simpl in H. destruct (Ascii.eqb d lf); apply IH; simpl; lia.
  - simpl. rewrite E. apply IH. lia.
Qed.

Lemma universal_newlines_id (s : string) :
  no_cr s = true -> universal_newlines s = s.
Proof.
  unfold no_cr. induction s as [|c s IH]; intros H; [reflexivity|].
  simpl in H. apply andb_true_iff in H as [Hc Hs].
  apply negb_true_iff in Hc. simpl. now rewrite Hc, IH.
Qed.

Lemma with_linesep_LF (s : string) : with_linesep LF s = s.
Proof.
  induction s as [|c s IH]; simpl; [reflexivity|].
  destruct (Ascii.eqb c lf) eqn:E; [|now rewrite IH].
  apply Ascii.eqb_eq in E. subst c. now rewrite IH.
Qed.

(** A text without carriage returns comes back from either line end. *)
Lemma universal_with_linesep (sep s : string) :
  sep = LF \/ sep = CRLF ->
  no_cr s = true ->
  universal_newlines (with_linesep sep s) = s.
Proof.
  intros [-> | ->] H.
  - rewrite with_linesep_LF. now apply universal_newlines_id.
  - revert H. unfold no_cr. induction s as [|c s IH]; intros H;
      [reflexivity|].
    simpl in H. apply andb_true_iff in H as [Hc Hs].
    apply negb_true_iff in Hc. simpl with_linesep.
    destruct (Ascii.eqb c lf) eqn:E.
    + apply Ascii.eqb_eq in E. subst c.
      change (CRLF ++ with_linesep CRLF s)%string
        with (String cr (String lf (with_linesep CRLF s))).
      simpl. now rewrite IH.
    + simpl. now rewrite Hc, IH.
Qed.

(** ** The matcher *)

Lemma match_many_unfold (cs : charset) (p : pattern) (s : string) :
  match_here (Many cs :: p) s =
  match s with
  | String d s' =>
      if member cs d then
        match match_here (Many cs :: p) s' with
        | Some n => Some (S n)
        | None => match_here p s
        end
      else match_here p s
  | EmptyString => match_here p s
  end.
Proof. destruct s; reflexivity. Qed.

Lemma match_here_le (p : pattern) : forall s n,
  match_here p s = Some n -> n <= String.length s.
Proof.
  induction p as [|[c|cs] p IH]; intros s n H.
  - simpl in H. injection H as <-. lia.
  - destruct s as [|d s]; simpl in H; [discriminate|].
    destruct (Ascii.eqb c d); [|discriminate].
    destruct (match_here p s) as [m|] eqn:E; simpl in H; [|discriminate].
    injection H as <-. apply IH in E. simpl. lia.
  - revert n H. induction s as [|d s IHs]; intros n H;
      rewrite match_many_unfold in H.
    + now apply IH.
    + destruct (member cs d).
      * destruct (match_here (Many cs :: p) s) as [m|] eqn:E.
        -- injection H as <-. specialize (IHs m eq_refl). simpl. lia.
        -- now apply IH.
      * now apply IH.
Qed.

Lemma match_literal_app (a : string) (p : pattern) (s : string) :
  match_here (literal a ++ p) (a ++ s)
  = option_map (Nat.add (String.length a)) (match_here p s).
Proof.
  induction a as [|x a IH]; simpl.
  - now destruct (match_here p s).
  - rewrite Ascii.eqb_refl, IH. now destruct (match_here p s).
Qed.

Lemma match_many_app (cs : charset) (p : pattern) (ws s : string) (n : nat) :
  all (member cs) ws = true ->
  stops (member cs) s = true ->
  match_here p s = Some n ->
  match_here (Many cs :: p) (ws ++ s) = Some (String.length ws + n).
Proof.
  intros Hws Hs Hp. induction ws as [|w ws IH].
  - simpl String.append. rewrite match_many_unfold.
    destruct s as [|d s]; [exact Hp|].
    simpl in Hs. apply negb_true_iff in Hs. now rewrite Hs.
  - simpl in Hws. apply andb_true_iff in Hws as [Hw Hws].
    change (String w ws ++ s)%string with (String w (ws ++ s)).
    rewrite match_many_unfold, Hw, (IH Hws). reflexivity.
Qed.

Lemma match_literal_inv (a : string) (p : pattern) : forall s n,
  match_here (literal a ++ p) s = Some n ->
  exists rest m,
    s = (a ++ rest)%string /\ match_here p rest = Some m
    /\ n = String.length a + m.
Proof.
  induction a as [|x a IH]; intros s n H.
  - exists s, n. auto.
  - destruct s as [|d s]; simpl in H; [discriminate|].
    destruct (Ascii.eqb x d) eqn:E; [|discriminate].
    apply Ascii.eqb_eq in E; subst d.
    destruct (match_here (literal a ++ p) s) as [k|] eqn:K;
      simpl in H; [|discriminate].
    injection H as <-.
    destruct (IH _ _ K) as (rest & m & -> & Hm & ->).
    exists rest, m. auto.
Qed.

Lemma match_many_inv (cs : charset) (p : pattern) : forall s n,
  match_here (Many cs :: p) s = Some n ->
  exists ws rest m,
    s = (ws ++ rest)%string /\ all (member cs) ws = true
    /\ match_here p rest = Some m /\ n = String.length ws + m.
Proof.
  induction s as [|d s IH]; intros n H; rewrite match_many_unfold in H.
  - exists "", "", n. auto.
  - destruct (member cs d) eqn:Hd.
    + destruct (match_here (Many cs :: p) s) as [k|] eqn:K.
      * injection H as <-.
        destruct (IH _ eq_refl) as (ws & rest & m & -> & Hws & Hm & ->).
        exists (String d ws), rest, m. simpl. rewrite Hd, Hws. auto.
      * exists "", (String d s), n. auto.
    + exists "", (String d s), n. auto.
Qed.

(** ** The scan of [re.sub] *)

Lemma sub_scan_skip (p : pattern) (repl : template) : forall k s,
  k <= String.length s ->
  sub_scan p repl k s = sub_scan p repl 0 (drop k s).
Proof.
  induction k as [|k IH]; intros s Hk.
  - now rewrite drop_0.
  - destruct s as [|c s]; simpl in Hk; [lia|].
    simpl drop. rewrite <- IH by lia. reflexivity.
Qed.

Lemma re_sub_hit (p : pattern) (repl : template) (s : string) (k : nat) :
  match_here p s = Some (S k) ->
  re_sub p repl s
  = (expand repl (take (S k) s) ++ re_sub p repl (drop (S k) s))%string.
Proof.
  intros H. pose proof (match_here_le _ _ _ H) as Hle.
  destruct s as [|c s]; simpl in Hle; [lia|].
  unfold re_sub. simpl sub_scan at 1. rewrite H.
  rewrite sub_scan_skip by lia. reflexivity.
Qed.

Lemma re_sub_miss (p : pattern) (repl : template) (c : ascii) (s : string) :
  match_here p (String c s) = None ->
  re_sub p repl (String c s) = String c (re_sub p repl s).
Proof. intros H. unfold re_sub. simpl sub_scan at 1. now rewrite H. Qed.

Lemma re_sub_prefix (p : pattern) (repl : template) : forall pre s,
  (forall i, i < String.length pre ->
             match_here p (drop i (pre ++ s)) = None) ->
  re_sub p repl (pre ++ s) = (pre ++ re_sub p repl s)%string.
Proof.
  induction pre as [|c pre IH]; intros s H; [reflexivity|].
  change (String c pre ++ s)%string with (String c (pre ++ s)).
  rewrite re_sub_miss.
  - simpl. f_equal. apply IH. intros i Hi.
    apply (H (S i)). simpl. lia.
  - apply (H 0). simpl. lia.
Qed.

Lemma re_sub_none (p : pattern) (repl : template) : forall s,
  (forall i, match_here p (drop i s) = None) ->
  re_sub p repl s = s.
Proof.
  induction s as [|c s IH]; intros H.
  - pose proof (H 0) as H0. simpl in H0.
    unfold re_sub. simpl. now rewrite H0.
  - rewrite re_sub_miss by apply (H 0).
    f_equal. apply IH. intros i. apply (H (S i)).
Qed.

Lemma segments_text (p : pattern) : forall s k,
  k <= String.length s ->
  join_all (map seg_text (segments p k s)) = drop k s.
Proof.
  induction s as [|c s IH]; intros k Hk.
  - simpl in Hk. assert (k = 0) as -> by lia. simpl.
    destruct (match_here p "") as [n|]; [|reflexivity].
    now destruct n.
  - destruct k as [|k].
    + simpl segments. destruct (match_here p (String c s)) as [[|n]|] eqn:E.
      * simpl. now rewrite IH, drop_0 by lia.
      * apply match_here_le in E. simpl in E.
        simpl. rewrite IH by lia. now rewrite take_drop.
      * simpl. now rewrite IH, drop_0 by lia.
    + simpl. apply IH. simpl in Hk. lia.
Qed.

Lemma segments_render (p : pattern) (repl : template) : forall s k,
  join_all (map (seg_render repl) (segments p k s)) = sub_scan p repl k s.
Proof.
  induction s as [|c s IH]; intros k.
  - destruct k; simpl; [|reflexivity].
    destruct (match_here p "") as [n|]; [|reflexivity]. reflexivity.
  - destruct k as [|k]; simpl.
    + destruct (match_here p (String c s)) as [[|n]|]; simpl;
        now rewrite IH.
    + apply IH.
Qed.

Lemma segments_hits (p : pattern) : forall s k g,
  In g (segments p k s) ->
  match g with
  | Hit m => exists t n, match_here p t = Some n /\ m = take n t
  | Kept _ => True
  end.
Proof.
  induction s as [|c s IH]; intros k g Hg.
  - destruct k; simpl in Hg; [|contradiction].
    destruct (match_here p "") as [n|] eqn:E; [|contradiction].
    destruct Hg as [<-|[]]. exists "", n. auto.
  - destruct k as [|k]; simpl in Hg.
    + destruct (match_here p (String c s)) as [[|n]|] eqn:E.
      * destruct Hg as [<-|[<-|Hg]].
        -- exists (String c s), 0. split; [exact E | reflexivity].
        -- exact I.
        -- exact (IH _ _ Hg).
      * destruct Hg as [<-|Hg].
        -- exists (String c s), (S n). split; [exact E | reflexivity].
        -- exact (IH _ _ Hg).
      * destruct Hg as [<-|Hg]; [exact I | exact (IH _ _ Hg)].
    + exact (IH _ _ Hg).
Qed.

Lemma segments_skip (p : pattern) : forall k s,
  k <= String.length s ->
  segments p k s = segments p 0 (drop k s).
Proof.
  induction k as [|k IH]; intros s Hk.
  - now rewrite drop_0.
  - destruct s as [|c s]; simpl in Hk; [lia|].
    simpl drop. rewrite <- IH by lia. reflexivity.
Qed.

Lemma segments_hit (p : pattern) (s : string) (k : nat) :
  match_here p s = Some (S k) ->
  segments p 0 s = Hit (take (S k) s) :: segments p 0 (drop (S k) s).
Proof.
  intros H. pose proof (match_here_le _ _ _ H) as Hle.
  destruct s as [|c s]; simpl in Hle; [lia|].
  simpl segments at 1. rewrite H.
  rewrite segments_skip by lia. reflexivity.
Qed.

Lemma segments_miss (p : pattern) (c : ascii) (s : string) :
  match_here p (String c s) = None ->
  segments p 0 (String c s) = Kept (String c "") :: segments p 0 s.
Proof. intros H. simpl segments at 1. now rewrite H. Qed.

(** ** The pattern of the patch *)

Lemma match_literal_cons (c : ascii) (p : pattern) (s : string) :
  match_here (Literal c :: p) (String c s) = option_map S (match_here p s).
Proof. simpl. now rewrite Ascii.eqb_refl. Qed.

Lemma match_literal_cons_inv (c : ascii) (p : pattern) (s : string) (n : nat) :
  match_here (Literal c :: p) s = Some n ->
  exists s' m, s = String c s' /\ match_here p s' = Some m /\ n = S m.
Proof.
  destruct s as [|d s]; simpl; [discriminate|].
  destruct (Ascii.eqb c d) eqn:E; [|discriminate].
  apply Ascii.eqb_eq in E; subst d.
  destruct (match_here p s) as [m|] eqn:K; simpl; [|discriminate].
  intros [= <-]. exists s, m. auto.
Qed.

Lemma statement_length (ws1 ws2 args : string) :
  String.length (statement ws1 ws2 args)
  = 15 + (String.length ws1 + S (String.length ws2
          + (3 + (String.length args + 1)))).
Proof.
  unfold statement. rewrite !length_append. simpl String.length. lia.
Qed.

Lemma match_statement (ws1 ws2 args post : string) :
  all isspace ws1 = true ->
  all isspace ws2 = true ->
  all (member (Except ")"%char)) args = true ->
  match_here find_dependency_fmt (statement ws1 ws2 args ++ post)
  = Some (String.length (statement ws1 ws2 args)).
Proof.
  intros H1 H2 Ha.
  set (tail := [Many (Except ")"%char); Literal ")"%char]).
  assert (E2 : match_here tail (args ++ ")" ++ post)
               = Some (String.length args + 1)).
  { apply match_many_app; [exact Ha | reflexivity |].
    reflexivity. }
  assert (E3 : match_here (literal "fmt" ++ tail)
                 ("fmt" ++ args ++ ")" ++ post)
               = Some (3 + (String.length args + 1))).
  { now rewrite match_literal_app, E2. }
  assert (E4 : match_here (Many Whitespace :: literal "fmt" ++ tail)
                 (ws2 ++ "fmt" ++ args ++ ")" ++ post)
               = Some (String.length ws2 + (3 + (String.length args + 1)))).
  { apply match_many_app; [exact H2 | reflexivity | exact E3]. }
  assert (E5 : match_here
                 (Literal "("%char :: Many Whitespace :: literal "fmt" ++ tail)
                 ("(" ++ ws2 ++ "fmt" ++ args ++ ")" ++ post)
               = Some (S (String.length ws2
                          + (3 + (String.length args + 1))))).
  { change ("(" ++ ws2 ++ "fmt" ++ args ++ ")" ++ post)%string
      with (String "("%char (ws2 ++ "fmt" ++ args ++ ")" ++ post)).
    now rewrite match_literal_cons, E4. }
  assert (E6 : match_here
                 (Many Whitespace :: Literal "("%char :: Many Whitespace
                  :: literal "fmt" ++ tail)
                 (ws1 ++ "(" ++ ws2 ++ "fmt" ++ args ++ ")" ++ post)
               = Some (String.length ws1
                       + S (String.length ws2
                            + (3 + (String.length args + 1))))).
  { apply match_many_app; [exact H1 | reflexivity | exact E5]. }
  rewrite statement_length. unfold statement.
  rewrite !append_assoc.
  change find_dependency_fmt
    with (literal "find_dependency"
          ++ Many Whitespace :: Literal "("%char :: Many Whitespace
             :: literal "fmt" ++ tail).
  now rewrite match_literal_app, E6.
Qed.

Lemma match_statement_inv (s : string) (n : nat) :
  match_here find_dependency_fmt s = Some n ->
  is_statement (take n s).
Proof.
  intros H.
  change find_dependency_fmt
    with (literal "find_dependency"
          ++ Many Whitespace :: Literal "("%char :: Many Whitespace
             :: literal "fmt"
                ++ [Many (Except ")"%char); Literal ")"%char]) in H.
  apply match_literal_inv in H as (r1 & n1 & -> & H & ->).
  apply match_many_inv in H as (ws1 & r2 & n2 & -> & W1 & H & ->).
  apply match_literal_cons_inv in H as (r3 & n3 & -> & H & ->).
  apply match_many_inv in H as (ws2 & r4 & n4 & -> & W2 & H & ->).
  apply match_literal_inv in H as (r5 & n5 & -> & H & ->).
  apply match_many_inv in H as (args & r6 & n6 & -> & Wa & H & ->).
  apply match_literal_cons_inv in H as (r7 & n7 & -> & H & ->).
  injection H as <-.
  exists ws1, ws2, args. repeat split; try assumption.
  assert (L : (String.length "find_dependency"
          + (String.length ws1
             + S (String.length ws2
                  + (String.length "fmt" + (String.length args + 1)))))%nat
         = String.length (statement ws1 ws2 args)).
  { rewrite statement_length. reflexivity. }
  rewrite L.
  replace ("find_dependency" ++ ws1 ++ String "("%char
             (ws2 ++ "fmt" ++ args ++ String ")"%char r7))%string
    with (statement ws1 ws2 args ++ r7)%string.
  - apply take_append.
  - unfold statement. rewrite !append_assoc. reflexivity.
Qed.

(** A statement holds one closing parenthesis, its last character. *)
Lemma isspace_not_close (ws : string) :
  all isspace ws = true -> all (member (Except ")"%char)) ws = true.
Proof.
  induction ws as [|c ws IH]; simpl; [reflexivity|]. intros H.
  apply andb_true_iff in H as [Hc Hs]. rewrite (IH Hs), andb_true_r.
  destruct (Ascii.eqb c ")") eqn:E; [|reflexivity].
  apply Ascii.eqb_eq in E. subst c. vm_compute in Hc. discriminate Hc.
Qed.

Lemma statement_closes (m : string) :
  is_statement m ->
  exists body,
    m = (body ++ ")")%string
    /\ all (member (Except ")"%char)) body = true.
Proof.
  intros (ws1 & ws2 & args & -> & H1 & H2 & Ha).
  exists ("find_dependency" ++ ws1 ++ "(" ++ ws2 ++ "fmt" ++ args)%string.
  split.
  - unfold statement. now rewrite !append_assoc.
  - rewrite !all_append, (isspace_not_close _ H1),
      (isspace_not_close _ H2), Ha. reflexivity.
Qed.

Lemma first_close : forall a b x y : string,
  all (member (Except ")"%char)) a = true ->
  all (member (Except ")"%char)) b = true ->
  (a ++ ")" ++ x)%string = (b ++ ")" ++ y)%string -> a = b /\ x = y.
Proof.
  induction a as [|c a IH]; intros [|d b] x y Ha Hb H; simpl in H.
  - injection H as ->. auto.
  - injection H as <- _. vm_compute in Hb. discriminate Hb.
  - injection H as -> _. vm_compute in Ha. discriminate Ha.
  - injection H as -> H. simpl in Ha, Hb.
    apply andb_true_iff in Ha as [_ Ha]. apply andb_true_iff in Hb as [_ Hb].
    destruct (IH _ _ _ Ha Hb H) as [-> ->]. auto.
Qed.

(** Where the scan meets a statement of the content: the statement is
    one of its matches, or it is the end of a match that starts before
    it.  [before] are the pieces of the scan up to that match and [u]
    is what the match holds before the statement. *)
Lemma scan_statement (m post : string) :
  is_statement m ->
  forall n pre, String.length pre <= n ->
  exists before u,
    pre = (join_all (map seg_text before) ++ u)%string
    /\ is_statement (u ++ m)
    /\ segments find_dependency_fmt 0 (pre ++ m ++ post)
       = before ++ Hit (u ++ m) :: segments find_dependency_fmt 0 post.
Proof.
  intros Hm.
  assert (At0 : segments find_dependency_fmt 0 (m ++ post)
                = Hit m :: segments find_dependency_fmt 0 post).
  { destruct Hm as (ws1 & ws2 & args & -> & H1 & H2 & Ha).
    pose proof (match_statement ws1 ws2 args post H1 H2 Ha) as M.
    destruct (String.length (statement ws1 ws2 args)) as [|k] eqn:E;
      [rewrite statement_length in E; lia|].
    rewrite (segments_hit _ _ _ M), <- E.
    now rewrite take_append, drop_append. }
  induction n as [|n IH]; intros pre Hn.
  { destruct pre; [|simpl in Hn; lia]. exists [], "". auto. }
  destruct pre as [|c pre']; [exists [], ""; auto|].
  set (P := String c pre') in *.
  destruct (match_here find_dependency_fmt (P ++ m ++ post)) as [k|] eqn:E.
  - pose proof (match_statement_inv _ _ E) as Hm0.
    pose proof (match_here_le _ _ _ E) as Hk.
    destruct k as [|k].
    { destruct Hm0 as (ws1 & ws2 & args & Eq & _).
      apply (f_equal String.length) in Eq.
      rewrite statement_length in Eq. simpl in Eq. lia. }
    destruct (Nat.le_gt_cases (S k) (String.length P)) as [Hle|Hgt].
    + destruct (IH (drop (S k) P)) as (before & u & Hpre & Hu & Hseg).
      { rewrite length_drop. subst P. simpl in *. lia. }
      exists (Hit (take (S k) P) :: before), u. split; [|split].
      * cbn [map seg_text join_all]. rewrite append_assoc, <- Hpre.
        now rewrite take_drop.
      * exact Hu.
      * rewrite (segments_hit _ _ _ E).
        rewrite take_app_le, drop_app_le by exact Hle.
        now rewrite Hseg.
    + destruct (statement_closes _ Hm0) as (body0 & Eb0 & Hb0).
      destruct (statement_closes _ Hm) as (bodym & Em & Hbm).
      assert (Lb : String.length body0 = k).
      { apply (f_equal String.length) in Eb0.
        rewrite length_take, length_append in Eb0 by exact Hk.
        simpl in Eb0. lia. }
      pose proof (take_drop (S k) (P ++ m ++ post)) as Cut.
      rewrite Eb0, append_assoc in Cut.
      assert (HP : all (member (Except ")"%char)) P = true).
      { rewrite <- (take_append P (m ++ post)), <- Cut.
        rewrite take_app_le by lia. now apply all_take. }
      assert (Both : (body0 ++ ")" ++ drop (S k) (P ++ m ++ post))%string
                     = ((P ++ bodym) ++ ")" ++ post)%string).
      { rewrite Cut, Em, !append_assoc. reflexivity. }
      apply first_close in Both as [B R]; [|exact Hb0|].
      2: { rewrite all_append, HP. exact Hbm. }
      assert (T : take (S k) (P ++ m ++ post) = (P ++ m)%string).
      { rewrite Eb0, B, Em. now rewrite append_assoc. }
      exists [], P. split; [reflexivity|]. split.
      * rewrite <- T. exact Hm0.
      * rewrite (segments_hit _ _ _ E), T, R. reflexivity.
  - destruct (IH pre') as (before & u & Hpre & Hu & Hseg).
    { subst P. simpl in Hn. lia. }
    exists (Kept (String c "") :: before), u. split; [|split].
    + cbn [map seg_text join_all]. subst P. rewrite Hpre. reflexivity.
    + exact Hu.
    + subst P. change (String c pre' ++ m ++ post)%string
        with (String c (pre' ++ m ++ post)) in *.
      rewrite (segments_miss _ _ _ E). now rewrite Hseg.
Qed.

(** ** The file system *)

Lemma entry_set_entry (c : string) (x : node) (es : list (string * node)) :
  entry c (set_entry c x es) = Some x.
Proof.
  induction es as [|[n y] es IH]; simpl.
  - now rewrite String.eqb_refl.
  - destruct (String.eqb n c) eqn:E; simpl; now rewrite E.
Qed.

Lemma set_entry_same (c : string) (x : node) (es : list (string * node)) :
  entry c es = Some x -> set_entry c x es = es.
Proof.
  induction es as [|[n y] es IH]; simpl; [discriminate|].
  destruct (String.eqb n c); intros H.
  - now injection H as ->.
  - now rewrite IH.
Qed.

Lemma entry_remove_entry (c : string) (es : list (string * node)) :
  entry c (remove_entry c es) = None.
Proof.
  induction es as [|[n y] es IH]; simpl; [reflexivity|].
  destruct (String.eqb n c) eqn:E; simpl; [exact IH | now rewrite E].
Qed.

Lemma lookup_fresh (q : path) : lookup q (fresh q) = Some (Dir []).
Proof.
  induction q as [|c q IH]; simpl; [reflexivity|].
  now rewrite String.eqb_refl.
Qed.

Lemma makedirs_lookup : forall q t t',
  makedirs_at q t = inr t' -> lookup q t' = Some (Dir []).
Proof.
  induction q as [|c q IH]; intros t t' H; simpl in H; [discriminate|].
  destruct t as [s|es]; [discriminate|].
  destruct (entry c es) as [x|] eqn:E.
  - destruct (makedirs_at q x) as [e|x'] eqn:K; [discriminate|].
    injection H as <-. simpl. rewrite entry_set_entry. eauto.
  - injection H as <-. simpl. rewrite entry_set_entry. apply lookup_fresh.
Qed.

Lemma no_file_on_tail (c : string) (q : path) (es : list (string * node))
  (x : node) :
  entry c es = Some x -> no_file_on (c :: q) (Dir es) -> no_file_on q x.
Proof.
  intros E H k s. specialize (H (S k) s). simpl in H. now rewrite E in H.
Qed.

Lemma makedirs_ok : forall q t,
  lookup q t = None -> no_file_on q t ->
  exists t', makedirs_at q t = inr t'.
Proof.
  induction q as [|c q IH]; intros t L N; simpl in L; [discriminate|].
  destruct t as [s|es].
  - exfalso. apply (N 0 s). reflexivity.
  - simpl. destruct (entry c es) as [x|] eqn:E; [|eauto].
    destruct (IH x L (no_file_on_tail _ _ _ _ E N)) as [x' ->]. eauto.
Qed.

Lemma rmtree_ok : forall q t es,
  q <> [] -> lookup q t = Some (Dir es) ->
  exists t', rmtree_at q t = inr t'
             /\ lookup q t' = None /\ no_file_on q t'.
Proof.
  induction q as [|c q IH]; intros t es0 Hq L; [congruence|].
  simpl in L. destruct t as [s|es]; [discriminate|].
  destruct (entry c es) as [x|] eqn:E; [|discriminate].
  simpl. rewrite E. destruct q as [|d q].
  - simpl in L. injection L as ->.
    eexists. split; [reflexivity|]. split.
    + simpl. now rewrite entry_remove_entry.
    + intros [|k] s; simpl; [discriminate|].
      rewrite entry_remove_entry. destruct k; discriminate.
  - destruct (IH x es0 ltac:(discriminate) L) as (x' & -> & L' & N').
    eexists. split; [reflexivity|]. split.
    + simpl. rewrite entry_set_entry. exact L'.
    + intros [|k] s; [discriminate|].
      change (firstn (S k) (c :: d :: q)) with (c :: firstn k (d :: q)).
      simpl lookup. rewrite entry_set_entry. apply N'.
Qed.

Lemma store_ok : forall q t c s,
  lookup q t = Some (File c) ->
  exists t', store_at q s t = inr t' /\ lookup q t' = Some (File s)
             /\ (s = c -> t' = t).
Proof.
  induction q as [|n q IH]; intros t c s L; simpl in L.
  - injection L as ->. exists (File s). simpl. repeat split. now intros ->.
  - destruct t as [u|es]; [discriminate|].
    destruct (entry n es) as [x|] eqn:E; [|discriminate].
    destruct (IH x c s L) as (x' & W & L' & Same).
    exists (Dir (set_entry n x' es)). simpl. rewrite E, W.
    repeat split.
    + now rewrite entry_set_entry.
    + intros Hs. rewrite (Same Hs). now rewrite set_entry_same.
Qed.

Lemma set_entry_twice (c : string) (x y : node) (es : list (string * node)) :
  set_entry c y (set_entry c x es) = set_entry c y es.
Proof.
  induction es as [|[n z] es IH]; simpl.
  - now rewrite String.eqb_refl.
  - destruct (String.eqb n c) eqn:E; simpl; rewrite E; [reflexivity|].
    now rewrite IH.
Qed.

(** What a file is given replaces what it was given before. *)
Lemma store_twice : forall q s0 s t t0,
  store_at q s0 t = inr t0 -> store_at q s t0 = store_at q s t.
Proof.
  induction q as [|n q IH]; intros s0 s t t0 H.
  - destruct t as [u|es]; simpl in H; [|discriminate].
    now injection H as <-.
  - destruct t as [u|es]; simpl in H; [discriminate|].
    destruct (entry n es) as [x|] eqn:E.
    + destruct (store_at q s0 x) as [e|x0] eqn:W; [discriminate|].
      injection H as <-. simpl. rewrite entry_set_entry, E.
      rewrite (IH _ s _ _ W).
      destruct (store_at q s x) as [e|x']; [reflexivity|].
      now rewrite set_entry_twice.
    + destruct q as [|d q]; [|discriminate].
      injection H as <-. simpl. rewrite entry_set_entry, E.
      now rewrite set_entry_twice.
Qed.

Lemma bytes_at_inv (q : path) (t : node) (s : string) :
  bytes_at q t = inr s -> lookup q t = Some (File s).
Proof.
  unfold bytes_at. destruct (lookup q t) as [[c|es]|]; try discriminate.
  now intros [= ->].
Qed.

Lemma bytes_at_file (q : path) (t : node) (s : string) :
  lookup q t = Some (File s) -> bytes_at q t = inr s.
Proof. unfold bytes_at. now intros ->. Qed.

Lemma find_config_app (l1 l2 : list (string * list string * list string)) :
  find_config (l1 ++ l2)
  = match find_config l1 with
    | Some r => Some r
    | None => find_config l2
    end.
Proof.
  induction l1 as [|[[root ds] fns] l1 IH]; simpl; [reflexivity|].
  destruct (existsb _ fns); [reflexivity | exact IH].
Qed.

Lemma find_config_walk : forall t top,
  has_file config_name t = false -> find_config (walk top t) = None.
Proof.
  induction t as [s|es IH] using node_induction; intros top H.
  - reflexivity.
  - simpl in H. apply orb_false_iff in H as [H1 H2].
    simpl. rewrite H1. clear H1.
    induction es as [|e es IHes]; [reflexivity|].
    simpl in H2. apply orb_false_iff in H2 as [He H2].
    inversion IH as [|? ? Pe Pes]; subst.
    simpl. rewrite find_config_app.
    destruct (snd e) as [s|es'] eqn:E.
    + simpl. now apply IHes.
    + cbv iota. rewrite (Pe _ He). now apply IHes.
Qed.

Lemma find_config_none (install_dir : string) (w : World) :
  no_config_under install_dir w -> find_config (walked install_dir w) = None.
Proof.
  unfold no_config_under, walked.
  destruct (lookup (resolve install_dir) (fs w)) as [t|]; [|reflexivity].
  apply find_config_walk.
Qed.

(** ** Runs *)

Lemma Stopped_app (rest more : list event) (o : outcome unit)
  (stop : list event) :
  Stopped rest o stop -> Stopped (rest ++ more) o stop.
Proof. intros H; destruct H; simpl; now constructor. Qed.

Lemma Stopped_not_ret (rest stop : list event) (o : outcome unit) :
  Stopped rest o stop -> o <> Ret tt.
Proof. intros H; destruct H; discriminate. Qed.

Lemma traces_seq {I J : Type} (m k : M unit) (w : World)
  (p1 : I -> list event) (p2 : J -> list event) :
  (exists i, Traces m w (p1 i)) ->
  (forall w1, exists j, Traces k w1 (p2 j)) ->
  exists i j, Traces (bind m (fun _ => k)) w (p1 i ++ p2 j).
Proof.
  intros [i (new & Ht & Hf)] Hk. exists i.
  unfold Traces, bind.
  destruct (m w) as [o w1]. simpl in Ht, Hf.
  destruct Hf as [[-> ->]|(done & rest & stop & Hp & -> & Hs)].
  - destruct (Hk w1) as [j (new2 & Ht2 & Hf2)]. exists j.
    exists (p1 i ++ new2). split.
    + rewrite Ht2, Ht. now rewrite app_assoc.
    + destruct Hf2 as [[-> ->]|(done & rest & stop & -> & -> & Hs)].
      * now left.
      * right. exists (p1 i ++ done), rest, stop.
        now rewrite !app_assoc.
  - destruct (Hk w) as [j _]. exists j.
    assert (Follows (p1 i ++ p2 j) o (done ++ stop)) as Hf.
    { right. exists done, (rest ++ p2 j), stop. rewrite Hp.
      rewrite <- app_assoc. auto using Stopped_app. }
    destruct Hs; simpl; eexists; eauto.
Qed.

Lemma print_traces (line : string) (w : World) :
  Traces (print line) w [Print line].
Proof. exists [Print line]. split; [reflexivity | now left]. Qed.

Lemma run_command_traces (cmd : list string) (dir : string) (w : World) :
  Traces (run_command cmd dir) w (step_ok cmd dir).
Proof.
  unfold Traces, run_command, bind, print, try_except, check_call, step_ok.
  simpl. destruct (spawn (spawned w) cmd dir (fs w)) as [r t].
  destruct r as [[|n|n]|e]; simpl; eexists;
    (split; [rewrite <- !app_assoc; simpl; reflexivity|]).
  - now left.
  - right. exists [running cmd], [Spawn cmd dir (Exited 0)]. eexists.
    split; [reflexivity|]. split; [reflexivity|]. now constructor.
  - right. exists [running cmd], [Spawn cmd dir (Exited 0)]. eexists.
    split; [reflexivity|]. split; [reflexivity|]. now constructor.
  - right. exists [running cmd], [Spawn cmd dir (Exited 0)]. eexists.
    split; [reflexivity|]. split; [reflexivity|]. constructor.
Qed.

Lemma traces_bind (m k : M unit) (w : World) (p1 p2 : list event) :
  Traces m w p1 ->
  (forall w1, m w = (Ret tt, w1) -> Traces k w1 p2) ->
  Traces (bind m (fun _ => k)) w (p1 ++ p2).
Proof.
  intros (new & Ht & Hf) Hk. unfold Traces, bind.
  destruct (m w) as [o w1]. simpl in Ht, Hf.
  destruct Hf as [[-> ->]|(done & rest & stop & Hp & -> & Hs)].
  - destruct (Hk w1 eq_refl) as (new2 & Ht2 & Hf2).
    exists (p1 ++ new2). split.
    + rewrite Ht2, Ht. now rewrite app_assoc.
    + destruct Hf2 as [[-> ->]|(done & rest & stop & -> & -> & Hs)].
      * now left.
      * right. exists (p1 ++ done), rest, stop.
        now rewrite !app_assoc.
  - assert (Follows (p1 ++ p2) o (done ++ stop)) as Hf.
    { right. exists done, (rest ++ p2), stop. rewrite Hp.
      rewrite <- app_assoc. auto using Stopped_app. }
    destruct Hs; simpl; eexists; eauto.
Qed.

Lemma traces_ext (m m' : M unit) (w : World) (plan : list event) :
  m w = m' w -> Traces m' w plan -> Traces m w plan.
Proof. unfold Traces. now intros ->. Qed.

Lemma ret_traces (w : World) : Traces (ret tt) w [].
Proof. exists []. split; [simpl; now rewrite app_nil_r | now left]. Qed.

Lemma checkout_traces (name repo_url workspace_dir : string) (w : World) :
  Traces (checkout name repo_url workspace_dir) w
    (if negb (present (path_join workspace_dir name) w)
     then step_ok (clone_cmd repo_url name) workspace_dir else []).
Proof.
  apply traces_ext with
    (m' := if negb (present (path_join workspace_dir name) w)
           then run_command ["git"; "clone"; repo_url; name] workspace_dir
           else ret tt); [reflexivity|].
  destruct (present (path_join workspace_dir name) w); cbn [negb].
  - apply ret_traces.
  - apply run_command_traces.
Qed.

Lemma make_build_dir_traces (build_dir : string) (w : World) :
  Traces (make_build_dir build_dir) w [].
Proof.
  assert (R : forall (r : oserror + node) (v : World),
             Traces (lift_fs r) v []).
  { intros [e|t] v; exists []; (split; [simpl; now rewrite app_nil_r|]).
    - right. exists [], [], []. repeat split. constructor.
    - now left. }
  apply traces_ext with
    (m' := bind (if present build_dir w then rmtree build_dir else ret tt)
             (fun _ => makedirs build_dir)); [reflexivity|].
  change [] with (@nil event ++ []).
  apply traces_bind; [|intros; apply R].
  destruct (present build_dir w); [apply R | apply ret_traces].
Qed.

Lemma setup_dependency_traces
  (name repo_url install_dir build_type : string)
  (cmake_args : list string) (workspace_dir : string) (w : World) :
  Traces (setup_dependency name repo_url install_dir build_type cmake_args
            workspace_dir) w
    (dependency_plan (negb (present (path_join workspace_dir name) w))
       name repo_url build_type cmake_args workspace_dir).
Proof.
  unfold setup_dependency, dependency_plan.
  apply traces_bind; [apply print_traces|].
  intros w1 E. injection E as <-.
  apply traces_bind;
    [exact (checkout_traces name repo_url workspace_dir (emit _ w))|].
  intros w2 _.
  change (step_ok (cmd_cmake cmake_args) ?d ++ ?l)
    with ([] ++ step_ok (cmd_cmake cmake_args) d ++ l).
  apply traces_bind; [apply make_build_dir_traces|]. intros w3 _.
  apply traces_bind; [apply run_command_traces|]. intros w4 _.
  apply traces_bind; [apply run_command_traces|]. intros w5 _.
  apply traces_bind; [apply run_command_traces|]. intros w6 _.
  apply print_traces.
Qed.

Lemma patch_not_found (install_dir : string) (is_windows : bool) (w : World) :
  find_config (walked install_dir w) = None
  \/ find_config (walked install_dir w) = Some "" ->
  patch_thread_system_config install_dir is_windows w = (Ret tt, warned w).
Proof.
  intros H. unfold patch_thread_system_config, bind, print, os_walk.
  change (walked install_dir (emit ?e w)) with (walked install_dir w).
  now destruct H as [-> | ->].
Qed.

Lemma patch_found (install_dir : string) (is_windows : bool) (w : World)
  (c : ascii) (f : string) :
  find_config (walked install_dir w) = Some (String c f) ->
  patch_thread_system_config install_dir is_windows w
  = match bytes_at (resolve (String c f)) (fs w) with
    | inl e => (Raise (OSError e), announced (String c f) w)
    | inr bytes =>
        match decode bytes with
        | None => (Raise UnicodeDecodeError, announced (String c f) w)
        | Some raw =>
            match store_at (resolve (String c f)) "" (fs w) with
            | inl e => (Raise (OSError e), announced (String c f) w)
            | inr opened =>
                match encode (with_linesep linesep
                                (patch_content (universal_newlines raw)))
                with
                | None =>
                    (Raise UnicodeEncodeError,
                     set_fs opened (announced (String c f) w))
                | Some bytes' =>
                    match store_at (resolve (String c f)) bytes' opened with
                    | inl e =>
                        (Raise (OSError e),
                         set_fs opened (announced (String c f) w))
                    | inr t =>
                        (Ret tt,
                         emit (Print "Patched config file successfully.")
                           (set_fs t (announced (String c f) w)))
                    end
                end
            end
        end
    end.
Proof.
  intros H.
  unfold patch_thread_system_config, bind, print, os_walk.
  change (walked install_dir (emit ?e w)) with (walked install_dir w).
  rewrite H. unfold read_file, write_file, lift_fs.
  assert (E : forall e v, fs (emit e v) = fs v) by reflexivity.
  rewrite !E.
  destruct (bytes_at _ (fs w)) as [e|bytes]; [reflexivity|].
  destruct (decode bytes) as [raw|]; [|reflexivity].
  rewrite !E.
  destruct (store_at _ "" (fs w)) as [e|opened]; [reflexivity|].
  destruct (encode _) as [bytes'|]; [|reflexivity].
  cbn [fs set_fs].
  now destruct (store_at _ bytes' opened) as [e|t].
Qed.

(** The four ways the patch step goes once it has found a file: the
    file cannot be opened; its bytes do not decode; the new text does
    not encode, which leaves the file empty; or the file is rewritten. *)
Lemma patch_cases (install_dir : string) (is_windows : bool) (w : World)
  (c : ascii) (f : string) :
  find_config (walked install_dir w) = Some (String c f) ->
  (exists e,
     bytes_at (resolve (String c f)) (fs w) = inl e
     /\ patch_thread_system_config install_dir is_windows w
        = (Raise (OSError e), announced (String c f) w))
  \/ (exists bytes,
        bytes_at (resolve (String c f)) (fs w) = inr bytes
        /\ decode bytes = None
        /\ patch_thread_system_config install_dir is_windows w
           = (Raise UnicodeDecodeError, announced (String c f) w))
  \/ (exists bytes raw opened,
        bytes_at (resolve (String c f)) (fs w) = inr bytes
        /\ decode bytes = Some raw
        /\ encode (with_linesep linesep
                     (patch_content (universal_newlines raw))) = None
        /\ store_at (resolve (String c f)) "" (fs w) = inr opened
        /\ patch_thread_system_config install_dir is_windows w
           = (Raise UnicodeEncodeError,
              set_fs opened (announced (String c f) w)))
  \/ (exists bytes raw bytes' t,
        bytes_at (resolve (String c f)) (fs w) = inr bytes
        /\ decode bytes = Some raw
        /\ encode (with_linesep linesep
                     (patch_content (universal_newlines raw))) = Some bytes'
        /\ store_at (resolve (String c f)) bytes' (fs w) = inr t
        /\ patch_thread_system_config install_dir is_windows w
           = (Ret tt,
              emit (Print "Patched config file successfully.")
                (set_fs t (announced (String c f) w)))).
Proof.
  intros F. rewrite (patch_found _ is_windows _ _ _ F).
  destruct (bytes_at _ (fs w)) as [e|bytes] eqn:B; [left; eauto|].
  right. destruct (decode bytes) as [raw|] eqn:D; [|left; eauto].
  right. pose proof (bytes_at_inv _ _ _ B) as L.
  destruct (store_ok _ _ _ "" L) as (opened & O & _ & _). rewrite O.
  destruct (encode _) as [bytes'|] eqn:N.
  - right. rewrite (store_twice _ _ bytes' _ _ O).
    destruct (store_ok _ _ _ bytes' L) as (t & S & _ & _). rewrite S.
    exists bytes, raw, bytes', t. auto.
  - left. exists bytes, raw, opened. auto.
Qed.

Lemma patch_traces (install_dir : string) (is_windows : bool) (w : World) :
  exists found,
    Traces (patch_thread_system_config install_dir is_windows) w
      (patch_plan found).
Proof.
  unfold Traces.
  destruct (find_config (walked install_dir w)) as [[|c f]|] eqn:F.
  1, 3: exists None; rewrite patch_not_found by auto;
    eexists; split; [simpl; rewrite <- !app_assoc; reflexivity | now left].
  exists (Some (String c f)).
  assert (Stop : forall o rest,
    Stopped rest o [] ->
    Follows (patch_plan (Some (String c f))) o
      [Print "Patching thread_system-config.cmake...";
       Print ("Found config file: " ++ String c f)]).
  { intros o rest Hs. right.
    exists [Print "Patching thread_system-config.cmake...";
            Print ("Found config file: " ++ String c f)],
      [Print "Patched config file successfully."], [].
    repeat split.
    inversion Hs; subst; constructor. }
  destruct (patch_cases _ is_windows _ _ _ F)
    as [(e & _ & ->)|[(b & _ & _ & ->)|[(b & r & o & _ & _ & _ & _ & ->)
       |(b & r & b' & t & _ & _ & _ & _ & ->)]]];
    eexists; (split; [simpl; rewrite <- !app_assoc; reflexivity|]).
  - apply (Stop _ []). constructor.
  - apply (Stop _ []). constructor.
  - apply (Stop _ []). constructor.
  - now left.
Qed.

Lemma main_unfold (args : Args) (w : World) :
  main args w
  = bind (setup_common args (cwd w))
      (fun _ =>
         bind (setup_thread args (cwd w))
           (fun _ =>
              bind (patch_thread_system_config (thread_install args)
                      (String.eqb (os args) "Windows"))
                (fun _ => setup_logger args (cwd w)))) w.
Proof. reflexivity. Qed.

Lemma main_traces (args : Args) (w : World) :
  exists clone1 clone2 clone3 found,
    Traces (main args) w
      (main_plan args (cwd w) clone1 clone2 clone3 found).
Proof.
  pose proof (fun name url idir cargs v =>
    ex_intro (fun c => Traces (setup_dependency name url idir
                (build_type args) cargs (cwd w)) v
                (dependency_plan c name url (build_type args) cargs (cwd w)))
      _ (setup_dependency_traces name url idir (build_type args) cargs
           (cwd w) v)) as S.
  assert (K3 : forall v, exists fc : option string * bool,
    Traces (bind (patch_thread_system_config (thread_install args)
                    (String.eqb (os args) "Windows"))
              (fun _ => setup_logger args (cwd w))) v
      (patch_plan (fst fc)
       ++ dependency_plan (snd fc) "logger_system" logger_url
            (build_type args) (logger_args args) (cwd w))).
  { intros v.
    destruct (traces_seq
      (patch_thread_system_config (thread_install args)
         (String.eqb (os args) "Windows"))
      (setup_logger args (cwd w)) v
      patch_plan
      (fun c => dependency_plan c "logger_system" logger_url
                  (build_type args) (logger_args args) (cwd w)))
      as (f & c & H); [apply patch_traces | intros; apply S |].
    now exists (f, c). }
  assert (K2 : forall v, exists cfc : bool * (option string * bool),
    Traces (bind (setup_thread args (cwd w))
              (fun _ =>
                 bind (patch_thread_system_config (thread_install args)
                         (String.eqb (os args) "Windows"))
                   (fun _ => setup_logger args (cwd w)))) v
      (dependency_plan (fst cfc) "thread_system" thread_url
         (build_type args) (thread_args args) (cwd w)
       ++ patch_plan (fst (snd cfc))
       ++ dependency_plan (snd (snd cfc)) "logger_system" logger_url
            (build_type args) (logger_args args) (cwd w))).
  { intros v.
    destruct (traces_seq (setup_thread args (cwd w)) _ v
      (fun c => dependency_plan c "thread_system" thread_url
                  (build_type args) (thread_args args) (cwd w))
      _ (S _ _ _ _ v) K3) as (c & fc & H).
    now exists (c, fc). }
  destruct (traces_seq (setup_common args (cwd w)) _ w
    (fun c => dependency_plan c "common_system" common_url
                (build_type args) (common_args args) (cwd w))
    _ (S _ _ _ _ w) K2) as (c1 & (c2 & (found & c3)) & H).
  exists c1, c2, c3, found.
  eapply traces_ext; [apply main_unfold | exact H].
Qed.

(** ** What runs can contain *)

Lemma dependency_plan_spawn (clone : bool) (name repo_url build_type : string)
  (cmake_args : list string) (workspace_dir : string)
  (cmd : list string) (dir : string) (r : proc_result) :
  In (Spawn cmd dir r)
     (dependency_plan clone name repo_url build_type cmake_args workspace_dir)
  ->
  r = Exited 0
  /\ ((clone = true /\ cmd = clone_cmd repo_url name)
      \/ cmd = cmd_cmake cmake_args
      \/ cmd = build_cmd build_type
      \/ cmd = install_cmd build_type).
Proof.
  unfold dependency_plan, step_ok, running.
  destruct clone; cbn [app In];
    intros H; repeat (destruct H as [H|H]); try discriminate H;
    try contradiction; injection H as <- <- <-; auto 10.
Qed.

Lemma patch_plan_spawn (found : option string)
  (cmd : list string) (dir : string) (r : proc_result) :
  ~ In (Spawn cmd dir r) (patch_plan found).
Proof.
  unfold patch_plan. destruct found; cbn [In];
    intros H; repeat (destruct H as [H|H]); try discriminate H; auto.
Qed.

Lemma main_plan_spawn (args : Args) (workspace_dir : string)
  (clone1 clone2 clone3 : bool) (found : option string)
  (cmd : list string) (dir : string) (r : proc_result) :
  In (Spawn cmd dir r)
     (main_plan args workspace_dir clone1 clone2 clone3 found) ->
  r = Exited 0
  /\ exists name repo_url cmake_args,
       In (name, repo_url, cmake_args) (dependencies args)
       /\ (cmd = clone_cmd repo_url name
           \/ cmd = cmd_cmake cmake_args
           \/ cmd = build_cmd (build_type args)
           \/ cmd = install_cmd (build_type args)).
Proof.
  unfold main_plan. rewrite !in_app_iff.
  intros [H|[H|[H|H]]];
    try (now apply patch_plan_spawn in H);
    apply dependency_plan_spawn in H as [-> H]; (split; [reflexivity|]).
  - exists "common_system", common_url, (common_args args).
    split; [simpl; auto | tauto].
  - exists "thread_system", thread_url, (thread_args args).
    split; [simpl; auto | tauto].
  - exists "logger_system", logger_url, (logger_args args).
    split; [simpl; auto | tauto].
Qed.

Lemma follows_spawn (plan new : list event) (o : outcome unit)
  (cmd : list string) (dir : string) (r : proc_result) :
  Follows plan o new -> In (Spawn cmd dir r) new ->
  exists r', In (Spawn cmd dir r') plan.
Proof.
  intros [[_ ->]|(done & rest & stop & -> & -> & Hs)] H; [eauto|].
  apply in_app_iff in H as [H|H].
  - exists r. apply in_app_iff. auto.
  - exists (Exited 0). apply in_app_iff. right.
    destruct Hs; cbn [In] in H; repeat (destruct H as [H|H]);
      try discriminate H; try contradiction;
      injection H as <- <- _; now left.
Qed.

Lemma follows_failed (plan new : list event) (o : outcome unit)
  (cmd : list string) (dir : string) (n : Z) :
  Follows plan o new ->
  (forall c d r, In (Spawn c d r) plan -> r = Exited 0) ->
  In (Spawn cmd dir (Exited n)) new -> n <> 0%Z ->
  o = Exit 1
  /\ exists done,
       new = done ++ [Spawn cmd dir (Exited n);
                      Print ("Error running command: "
                             ++ exn_str (CalledProcessError cmd n))].
Proof.
  intros [[_ ->]|(done & rest & stop & -> & -> & Hs)] Hok H Hn.
  - apply Hok in H. congruence.
  - apply in_app_iff in H as [H|H].
    + assert (Exited n = Exited 0) by
        (eapply Hok, in_app_iff; left; exact H). congruence.
    + destruct Hs; cbn [In] in H; repeat (destruct H as [H|H]);
        try discriminate H; try contradiction.
      injection H as <- <- <-. split; [reflexivity|]. now exists done.
Qed.

Lemma follows_all_ok (plan new : list event) (o : outcome unit) :
  Follows plan o new ->
  (forall c d r, In (Spawn c d r) new -> r = Exited 0) ->
  (forall e, o <> Raise e) ->
  o = Ret tt.
Proof.
  intros [[-> _]|(done & rest & stop & -> & -> & Hs)] Hok Hr; [reflexivity|].
  destruct Hs as [cmd dir n rest Hn| | | |].
  - assert (Exited n = Exited 0) by
      (eapply Hok, in_app_iff; right; left; reflexivity). congruence.
  - now elim (Hr (OSError e)).
  - now elim (Hr (OSError e)).
  - now elim (Hr UnicodeDecodeError).
  - now elim (Hr UnicodeEncodeError).
Qed.

Lemma run_command_failed (cmd : list string) (dir : string) (w : World)
  (n : Z) (t : node) :
  spawn (spawned w) cmd dir (fs w) = (Exited n, t) -> n <> 0%Z ->
  run_command cmd dir w
  = (Exit 1,
     mkWorld t (cwd w) (S (spawned w))
       (trace w ++ [running cmd; Spawn cmd dir (Exited n);
                    Print ("Error running command: "
                           ++ exn_str (CalledProcessError cmd n))])).
Proof.
  intros E Hn.
  unfold run_command, bind, print, try_except, check_call, sys_exit, running.
  cbn [emit fs cwd spawned trace]. rewrite E.
  destruct n as [|p|p]; [congruence| |];
    unfold emit; cbn [fs cwd spawned trace]; now rewrite <- !app_assoc.
Qed.

(** C1 (amended).  When a process that the script runs returns a status
    other than 0, [run_command] prints the error and exits with 1; in a
    run of [main] such an invocation and the print of its error are the
    last two events and the status of the run is 1.  When every
    invocation of a run returns 0 and no exception leaves the script,
    the run returns and its status is 0. *)
Theorem command_failure_is_fatal (args : Args) (w : World)
  (new : list event) :
  trace (snd (main args w)) = trace w ++ new ->
  (forall cmd dir v n t,
     spawn (spawned v) cmd dir (fs v) = (Exited n, t) -> n <> 0%Z ->
     fst (run_command cmd dir v) = Exit 1
     /\ trace (snd (run_command cmd dir v))
        = trace v ++ [running cmd; Spawn cmd dir (Exited n);
                      Print ("Error running command: "
                             ++ exn_str (CalledProcessError cmd n))])
  /\ (forall cmd dir n,
        In (Spawn cmd dir (Exited n)) new -> n <> 0%Z ->
        exit_status (fst (main args w)) = 1%Z
        /\ exists done,
             new = done ++ [Spawn cmd dir (Exited n);
                            Print ("Error running command: "
                                   ++ exn_str (CalledProcessError cmd n))])
  /\ ((forall cmd dir r, In (Spawn cmd dir r) new -> r = Exited 0) ->
      (forall e, fst (main args w) <> Raise e) ->
      fst (main args w) = Ret tt /\ exit_status (fst (main args w)) = 0%Z).
Proof.
  intros Hnew.
  destruct (main_traces args w) as (c1 & c2 & c3 & found & new' & Ht & Hf).
  assert (new' = new) as ->
    by (rewrite Hnew in Ht; now apply app_inv_head in Ht).
  split; [|split].
  - intros cmd dir v n t E Hn.
    rewrite (run_command_failed _ _ _ _ _ E Hn). auto.
  - intros cmd dir n H Hn.
    destruct (follows_failed _ _ _ cmd dir n Hf) as [-> D]; auto.
    intros c d r Hp. now apply main_plan_spawn in Hp.
  - intros Hok Hr.
    rewrite (follows_all_ok _ _ _ Hf Hok Hr). auto.
Qed.

Lemma completed_run (args : Args) (w : World) (new : list event) :
  fst (main args w) = Ret tt ->
  trace (snd (main args w)) = trace w ++ new ->
  exists clone1 clone2 clone3 found,
    new = main_plan args (cwd w) clone1 clone2 clone3 found.
Proof.
  intros Ho Hnew.
  destruct (main_traces args w) as (c1 & c2 & c3 & found & new' & Ht & Hf).
  assert (new' = new) as ->
    by (rewrite Hnew in Ht; now apply app_inv_head in Ht).
  exists c1, c2, c3, found.
  destruct Hf as [[_ ->]|(done & rest & stop & _ & _ & Hs)]; [reflexivity|].
  apply Stopped_not_ret in Hs. contradiction.
Qed.

Lemma configure_in_plan (clone : bool) (name repo_url build_type : string)
  (cmake_args : list string) (workspace_dir : string) :
  In (Spawn (cmd_cmake cmake_args) (build_dir_of workspace_dir name)
        (Exited 0))
     (dependency_plan clone name repo_url build_type cmake_args
        workspace_dir).
Proof.
  unfold dependency_plan, step_ok. destruct clone; cbn [app In]; auto 10.
Qed.

Lemma configure_in_run (args : Args) (w : World) (new : list event)
  (cmd : list string) (dir : string) (r : proc_result) :
  trace (snd (main args w)) = trace w ++ new ->
  In (Spawn cmd dir r) new -> is_configure cmd ->
  exists name repo_url cmake_args,
    In (name, repo_url, cmake_args) (dependencies args)
    /\ cmd = cmd_cmake cmake_args.
Proof.
  intros Hnew H [rest Hc].
  destruct (main_traces args w) as (c1 & c2 & c3 & found & new' & Ht & Hf).
  assert (new' = new) as ->
    by (rewrite Hnew in Ht; now apply app_inv_head in Ht).
  destruct (follows_spawn _ _ _ _ _ _ Hf H) as [r' Hp].
  apply main_plan_spawn in Hp as (_ & name & url & cargs & Hd & Hcmd).
  exists name, url, cargs. split; [exact Hd|].
  destruct Hcmd as [E|[E|[E|E]]]; [| exact E | |];
    rewrite E in Hc; discriminate Hc.
Qed.

Lemma In_cmd_cmake (x : string) (cmake_args : list string) :
  In x (cmd_cmake cmake_args) <->
  In x ["cmake"; "-B"; "."; "-S"; ".."]
  \/ (In x cmake_args /\ truthy x = true).
Proof. unfold cmd_cmake. now rewrite in_app_iff, filter_In. Qed.

Lemma set_last_app (l : list string) (x y : string) :
  set_last (l ++ [x]) y = l ++ [y].
Proof.
  induction l as [|a l IH]; [reflexivity|].
  cbn [app set_last]. rewrite IH.
  now destruct l.
Qed.

Lemma base_cmake_args_pinned (args : Args) :
  os args = "Linux" /\ compiler args = "gcc" ->
  base_cmake_args args
  = ["-DCMAKE_BUILD_TYPE=" ++ build_type args; "-DBUILD_TESTS=OFF";
     "-DBUILD_SAMPLES=OFF"; "-DUSE_STD_FORMAT=ON"; pin_c; pin_cxx]%string.
Proof. intros [Ho Hc]. unfold base_cmake_args. now rewrite Ho, Hc. Qed.

Lemma base_cmake_args_plain (args : Args) :
  ~ (os args = "Linux" /\ compiler args = "gcc") ->
  base_cmake_args args
  = ["-DCMAKE_BUILD_TYPE=" ++ build_type args; "-DBUILD_TESTS=OFF";
     "-DBUILD_SAMPLES=OFF"; "-DUSE_STD_FORMAT=ON"]%string.
Proof.
  intros H. unfold base_cmake_args.
  destruct (String.eqb_spec (os args) "Linux") as [Ho|Ho];
    destruct (String.eqb_spec (compiler args) "gcc") as [Hc|Hc];
    cbn [andb]; try reflexivity.
  now elim H.
Qed.

Lemma thread_args_eq (args : Args) :
  thread_args args
  = base_cmake_args args
    ++ ["-DCMAKE_INSTALL_PREFIX=" ++ thread_install args;
        "-DCMAKE_PREFIX_PATH=" ++ common_install args;
        if String.eqb (os args) "Windows"
        then "-DCMAKE_CXX_FLAGS=/I" ++ common_install args ++ "/include"
        else "-DCMAKE_CXX_FLAGS=-I" ++ common_install args ++ "/include"
       ]%string.
Proof.
  unfold thread_args.
  destruct (String.eqb (os args) "Windows"); [|reflexivity].
  change (base_cmake_args args ++ [?a; ?b; ?c])
    with (base_cmake_args args ++ [a; b] ++ [c]).
  rewrite app_assoc, set_last_app, <- app_assoc. reflexivity.
Qed.

Lemma logger_args_eq (args : Args) :
  logger_args args
  = base_cmake_args args
    ++ ["-DCMAKE_INSTALL_PREFIX=" ++ logger_install args;
        "-DCMAKE_PREFIX_PATH=" ++ common_install args ++ ";"
        ++ thread_install args;
        "-DCMAKE_CXX_FLAGS=" ++ cxx_flags args]%string.
Proof. unfold logger_args. now rewrite <- app_assoc. Qed.

(** The arguments of a dependency are those of [base_cmake_args] and
    then flags for the install prefix, the search path and the include
    paths, none of which is one of the two flags that pin the compiler. *)
Lemma dependency_args (args : Args) (name repo_url : string)
  (cmake_args : list string) :
  In (name, repo_url, cmake_args) (dependencies args) ->
  exists own,
    cmake_args = base_cmake_args args ++ own
    /\ ~ In pin_c own /\ ~ In pin_cxx own.
Proof.
  intros [H|[H|[H|[]]]]; injection H as _ _ <-.
  - eexists. split; [reflexivity|]. unfold pin_c, pin_cxx.
    split; intros [H|[]]; discriminate H.
  - eexists. split; [apply thread_args_eq|]. unfold pin_c, pin_cxx.
    destruct (String.eqb (os args) "Windows");
      split; intros [H|[H|[H|[]]]]; discriminate H.
  - eexists. split; [apply logger_args_eq|]. unfold pin_c, pin_cxx.
    split; intros [H|[H|[H|[]]]]; discriminate H.
Qed.

(** C9.  With [--os Linux] and [--compiler gcc] the argument list of
    each of the three dependencies, and so every configure command that
    a run spawns, holds [-DCMAKE_C_COMPILER=gcc-13] and
    [-DCMAKE_CXX_COMPILER=g++-13]; with any other pair, no argument list
    and no configure command of a run holds either of them. *)
Theorem compiler_pinned_for_linux_gcc_only (args : Args) :
  (os args = "Linux" /\ compiler args = "gcc" ->
   (forall name repo_url cmake_args,
      In (name, repo_url, cmake_args) (dependencies args) ->
      In pin_c cmake_args /\ In pin_cxx cmake_args)
   /\ (forall w new cmd dir r,
         trace (snd (main args w)) = trace w ++ new ->
         In (Spawn cmd dir r) new -> is_configure cmd ->
         In pin_c cmd /\ In pin_cxx cmd))
  /\ (~ (os args = "Linux" /\ compiler args = "gcc") ->
      (forall name repo_url cmake_args,
         In (name, repo_url, cmake_args) (dependencies args) ->
         ~ In pin_c cmake_args /\ ~ In pin_cxx cmake_args)
      /\ (forall w new cmd dir r,
            trace (snd (main args w)) = trace w ++ new ->
            In (Spawn cmd dir r) new -> is_configure cmd ->
            ~ In pin_c cmd /\ ~ In pin_cxx cmd)).
Proof.
  split; intros Hlg.
  - assert (A : forall name repo_url cmake_args,
               In (name, repo_url, cmake_args) (dependencies args) ->
               In pin_c cmake_args /\ In pin_cxx cmake_args).
    { intros name url cargs Hd.
      destruct (dependency_args _ _ _ _ Hd) as (own & -> & _).
      rewrite (base_cmake_args_pinned _ Hlg), !in_app_iff.
      cbn [In]. auto 10. }
    split; [exact A|].
    intros w new cmd dir r Hnew H Hc.
    destruct (configure_in_run _ _ _ _ _ _ Hnew H Hc)
      as (name & url & cargs & Hd & ->).
    destruct (A _ _ _ Hd) as [H1 H2].
    rewrite !In_cmd_cmake. split; right; (split; [assumption|reflexivity]).
  - assert (A : forall name repo_url cmake_args,
               In (name, repo_url, cmake_args) (dependencies args) ->
               ~ In pin_c cmake_args /\ ~ In pin_cxx cmake_args).
    { intros name url cargs Hd.
      destruct (dependency_args _ _ _ _ Hd) as (own & -> & N1 & N2).
      rewrite (base_cmake_args_plain _ Hlg), !in_app_iff.
      unfold pin_c, pin_cxx in *. cbn [In].
      split; intros [[H|[H|[H|[H|[]]]]]|H]; try discriminate H; auto. }
    split; [exact A|].
    intros w new cmd dir r Hnew H Hc.
    destruct (configure_in_run _ _ _ _ _ _ Hnew H Hc)
      as (name & url & cargs & Hd & ->).
    destruct (A _ _ _ Hd) as [H1 H2].
    rewrite !In_cmd_cmake. unfold pin_c, pin_cxx in *. cbn [In].
    split; intros [[E|[E|[E|[E|[E|[]]]]]]|[E _]];
      try discriminate E; auto.
Qed.

Lemma configure_in_completed_run (args : Args) (w : World)
  (new : list event) :
  fst (main args w) = Ret tt ->
  trace (snd (main args w)) = trace w ++ new ->
  forall name repo_url cmake_args,
    In (name, repo_url, cmake_args) (dependencies args) ->
    In (Spawn (cmd_cmake cmake_args) (build_dir_of (cwd w) name) (Exited 0))
       new.
Proof.
  intros Ho Hnew name url cargs Hd.
  destruct (completed_run _ _ _ Ho Hnew) as (c1 & c2 & c3 & found & ->).
  unfold main_plan. rewrite !in_app_iff.
  destruct Hd as [H|[H|[H|[]]]]; injection H as <- _ <-;
    auto using configure_in_plan.
Qed.

(** C5.  The arguments of the logger dependency hold the flag
    [-DCMAKE_PREFIX_PATH=<common install>;<thread install>], the common
    directory first; the flag is in the configure command built from
    them, which every run that goes through has spawned in the build
    directory of [logger_system]. *)
Theorem logger_prefix_path_lists_common_then_thread (args : Args) :
  let flag := ("-DCMAKE_PREFIX_PATH=" ++ common_install args ++ ";"
               ++ thread_install args)%string in
  In flag (logger_args args)
  /\ In flag (cmd_cmake (logger_args args))
  /\ forall w new,
       fst (main args w) = Ret tt ->
       trace (snd (main args w)) = trace w ++ new ->
       In (Spawn (cmd_cmake (logger_args args))
             (build_dir_of (cwd w) "logger_system") (Exited 0)) new.
Proof.
  intros flag.
  assert (H : In flag (logger_args args)).
  { rewrite logger_args_eq, in_app_iff. right. right. now left. }
  split; [exact H|]. split.
  - apply In_cmd_cmake. right. split; [exact H | reflexivity].
  - intros w new Ho Hnew.
    apply (configure_in_completed_run _ _ _ Ho Hnew _ logger_url).
    simpl. auto.
Qed.

(** C4.  With [--os Windows] the [-DCMAKE_CXX_FLAGS] argument of the
    thread and of the logger dependency writes its include paths as
    [/I<path>]; with every other [--os] it writes them as [-I<path>].
    The argument is the last of the list in both, and every run that
    goes through has spawned the configure commands built from these
    lists. *)
Theorem include_flags_follow_os (args : Args) :
  (os args = "Windows" ->
   thread_args args
   = base_cmake_args args
     ++ ["-DCMAKE_INSTALL_PREFIX=" ++ thread_install args;
         "-DCMAKE_PREFIX_PATH=" ++ common_install args;
         "-DCMAKE_CXX_FLAGS=/I" ++ common_install args ++ "/include"]%string
   /\ logger_args args
      = base_cmake_args args
        ++ ["-DCMAKE_INSTALL_PREFIX=" ++ logger_install args;
            "-DCMAKE_PREFIX_PATH=" ++ common_install args ++ ";"
            ++ thread_install args;
            "-DCMAKE_CXX_FLAGS=/I" ++ common_install args
            ++ "/include /I" ++ thread_install args ++ "/include"]%string)
  /\ (os args <> "Windows" ->
      thread_args args
      = base_cmake_args args
        ++ ["-DCMAKE_INSTALL_PREFIX=" ++ thread_install args;
            "-DCMAKE_PREFIX_PATH=" ++ common_install args;
            "-DCMAKE_CXX_FLAGS=-I" ++ common_install args ++ "/include"
           ]%string
      /\ logger_args args
         = base_cmake_args args
           ++ ["-DCMAKE_INSTALL_PREFIX=" ++ logger_install args;
               "-DCMAKE_PREFIX_PATH=" ++ common_install args ++ ";"
               ++ thread_install args;
               "-DCMAKE_CXX_FLAGS=-I" ++ common_install args
               ++ "/include -I" ++ thread_install args ++ "/include"
              ]%string)
  /\ (forall w new,
        fst (main args w) = Ret tt ->
        trace (snd (main args w)) = trace w ++ new ->
        In (Spawn (cmd_cmake (thread_args args))
              (build_dir_of (cwd w) "thread_system") (Exited 0)) new
        /\ In (Spawn (cmd_cmake (logger_args args))
                 (build_dir_of (cwd w) "logger_system") (Exited 0)) new).
Proof.
  rewrite thread_args_eq, logger_args_eq. unfold cxx_flags.
  split; [|split].
  - intros H. apply String.eqb_eq in H. now rewrite H.
  - intros H. apply String.eqb_neq in H. now rewrite H.
  - intros w new Ho Hnew.
    rewrite <- thread_args_eq, <- logger_args_eq.
    split.
    + apply (configure_in_completed_run _ _ _ Ho Hnew _ thread_url).
      simpl. auto.
    + apply (configure_in_completed_run _ _ _ Ho Hnew _ logger_url).
      simpl. auto.
Qed.

(** C7.  When [workspace/<name>] exists as the setup of a dependency
    starts, the checkout step returns at once and leaves the world as it
    was: nothing is run and the file system is untouched.  The setup
    then spawns no [git clone]: the only commands it runs are the
    configure, build and install ones. *)
Theorem existing_source_is_not_cloned
  (name repo_url install_dir build_type : string)
  (cmake_args : list string) (workspace_dir : string) (w : World)
  (new : list event) :
  present (path_join workspace_dir name) w = true ->
  trace (snd (setup_dependency name repo_url install_dir build_type
                cmake_args workspace_dir w)) = trace w ++ new ->
  checkout name repo_url workspace_dir w = (Ret tt, w)
  /\ (forall dir r, ~ In (Spawn (clone_cmd repo_url name) dir r) new)
  /\ (forall cmd dir r,
        In (Spawn cmd dir r) new ->
        cmd = cmd_cmake cmake_args
        \/ cmd = build_cmd build_type
        \/ cmd = install_cmd build_type).
Proof.
  intros Hp Hnew.
  assert (A : forall cmd dir r,
             In (Spawn cmd dir r) new ->
             cmd = cmd_cmake cmake_args
             \/ cmd = build_cmd build_type
             \/ cmd = install_cmd build_type).
  { intros cmd dir r H.
    destruct (setup_dependency_traces name repo_url install_dir build_type
                cmake_args workspace_dir w) as (new' & Ht & Hf).
    assert (new' = new) as ->
      by (rewrite Hnew in Ht; now apply app_inv_head in Ht).
    rewrite Hp in Hf.
    destruct (follows_spawn _ _ _ _ _ _ Hf H) as [r' Hin].
    apply dependency_plan_spawn in Hin as [_ [[C _]|Hin]];
      [discriminate C | exact Hin]. }
  split; [|split; [|exact A]].
  - unfold checkout, bind, path_exists. now rewrite Hp.
  - intros dir r H. apply A in H.
    destruct H as [H|[H|H]]; discriminate H.
Qed.

Lemma patch_keeps_going (install_dir : string) (is_windows : bool)
  (w : World) :
  no_config_under install_dir w ->
  patch_thread_system_config install_dir is_windows w = (Ret tt, warned w).
Proof.
  intros H. apply patch_not_found. left. now apply find_config_none.
Qed.

Lemma setup_dependency_completes
  (name repo_url install_dir build_type : string)
  (cmake_args : list string) (workspace_dir : string) (w : World)
  (new : list event) :
  trace (snd (setup_dependency name repo_url install_dir build_type
                cmake_args workspace_dir w)) = trace w ++ new ->
  (forall c d r, In (Spawn c d r) new -> r = Exited 0) ->
  (forall e, fst (setup_dependency name repo_url install_dir build_type
                    cmake_args workspace_dir w) <> Raise e) ->
  fst (setup_dependency name repo_url install_dir build_type
         cmake_args workspace_dir w) = Ret tt
  /\ new = dependency_plan (negb (present (path_join workspace_dir name) w))
             name repo_url build_type cmake_args workspace_dir.
Proof.
  intros Hnew Hok Hr.
  destruct (setup_dependency_traces name repo_url install_dir build_type
              cmake_args workspace_dir w) as (new' & Ht & Hf).
  assert (new' = new) as ->
    by (rewrite Hnew in Ht; now apply app_inv_head in Ht).
  pose proof (follows_all_ok _ _ _ Hf Hok Hr) as Ho.
  split; [exact Ho|].
  destruct Hf as [[_ ->]|(done & rest & stop & _ & _ & Hs)]; [reflexivity|].
  apply Stopped_not_ret in Hs. contradiction.
Qed.

(** C2.  When no file called [thread_system-config.cmake] lies under
    the install directory, the patch step prints its warning and
    returns, and changes nothing else.  In [main], once the common and
    thread setups have returned, the rest of the run is then the setup
    of the logger dependency, started after the warning: its events
    follow the plan of that setup (clone if needed, configure, build,
    install), in full when its processes return 0 and no exception
    leaves it. *)
Theorem missing_config_only_warns (args : Args) (w w1 : World) :
  bind (setup_common args (cwd w)) (fun _ => setup_thread args (cwd w)) w
  = (Ret tt, w1) ->
  no_config_under (thread_install args) w1 ->
  patch_thread_system_config (thread_install args)
    (String.eqb (os args) "Windows") w1 = (Ret tt, warned w1)
  /\ fs (warned w1) = fs w1
  /\ trace (warned w1)
     = trace w1 ++ [Print "Patching thread_system-config.cmake...";
                    Print "Warning: thread_system-config.cmake not found"]
  /\ main args w = setup_logger args (cwd w) (warned w1)
  /\ forall new,
       trace (snd (main args w)) = trace (warned w1) ++ new ->
       Follows
         (dependency_plan
            (negb (present (path_join (cwd w) "logger_system") w1))
            "logger_system" logger_url (build_type args) (logger_args args)
            (cwd w))
         (fst (main args w)) new
       /\ ((forall c d r, In (Spawn c d r) new -> r = Exited 0) ->
           (forall e, fst (main args w) <> Raise e) ->
           fst (main args w) = Ret tt
           /\ new = dependency_plan
                      (negb (present (path_join (cwd w) "logger_system") w1))
                      "logger_system" logger_url (build_type args)
                      (logger_args args) (cwd w)).
Proof.
  intros Hpre Hno.
  pose proof (patch_keeps_going _ (String.eqb (os args) "Windows") _ Hno)
    as Hpatch.
  assert (Hmain : main args w = setup_logger args (cwd w) (warned w1)).
  { rewrite main_unfold. unfold bind at 1 2.
    unfold bind in Hpre.
    destruct (setup_common args (cwd w) w) as [[[]|c|e] v];
      try discriminate Hpre.
    rewrite Hpre. unfold bind. now rewrite Hpatch. }
  split; [exact Hpatch|]. split; [reflexivity|].
  split; [unfold warned, emit; simpl; now rewrite <- app_assoc|].
  split; [exact Hmain|].
  intros new Hnew. rewrite Hmain in *. unfold setup_logger in *. split.
  - destruct (setup_dependency_traces "logger_system" logger_url
                (logger_install args) (build_type args) (logger_args args)
                (cwd w) (warned w1)) as (new' & Ht & Hf).
    assert (new' = new) as ->
      by (rewrite Hnew in Ht; now apply app_inv_head in Ht).
    exact Hf.
  - intros Hok Hr.
    exact (setup_dependency_completes _ _ _ _ _ _ _ _ Hnew Hok Hr).
Qed.

Lemma patch_rewrites_file (install_dir : string) (is_windows : bool)
  (w : World) (c : ascii) (f bytes raw bytes' : string) :
  find_config (walked install_dir w) = Some (String c f) ->
  bytes_at (resolve (String c f)) (fs w) = inr bytes ->
  decode bytes = Some raw ->
  encode (with_linesep linesep (patch_content (universal_newlines raw)))
  = Some bytes' ->
  exists t,
    patch_thread_system_config install_dir is_windows w
    = (Ret tt,
       emit (Print "Patched config file successfully.")
         (set_fs t (announced (String c f) w)))
    /\ store_at (resolve (String c f)) bytes' (fs w) = inr t
    /\ bytes_at (resolve (String c f)) t = inr bytes'
    /\ (bytes' = bytes -> t = fs w).
Proof.
  intros F R D N.
  destruct (patch_cases _ is_windows _ _ _ F)
    as [(e & R' & _)|[(b & R' & D' & _)|[(b & r & o & R' & D' & N' & _)
       |(b & r & b' & t & R' & D' & N' & S & ->)]]];
    rewrite R in R'; try discriminate R'; injection R' as <-;
    rewrite D in D'; try discriminate D'; injection D' as <-;
    rewrite N in N'; try discriminate N'; injection N' as <-.
  exists t. split; [reflexivity|]. split; [exact S|].
  destruct (store_ok _ _ _ bytes' (bytes_at_inv _ _ _ R))
    as (t' & S' & L & Same).
  rewrite S in S'. injection S' as <-.
  split; [now apply bytes_at_file | exact Same].
Qed.

(** The patch adds the marker and copies the rest: a property of
    characters that the marker has holds of the new content when it
    holds of the content. *)
Lemma all_patch_content (p : ascii -> bool) (content : string) :
  p "#"%char = true -> p " "%char = true ->
  all p (patch_content content) = all p content.
Proof.
  intros Hh Hs.
  assert (J : forall segs,
    all p (join_all (map (seg_render comment_out) segs))
    = all p (join_all (map seg_text segs))).
  { induction segs as [|[t|m] segs IH]; cbn [map join_all];
      [reflexivity| |]; rewrite !all_append, IH; [reflexivity|].
    cbn [seg_render comment_out expand seg_text].
    rewrite append_nil_r. simpl. now rewrite Hh, Hs. }
  unfold patch_content, re_sub.
  rewrite <- (segments_render find_dependency_fmt comment_out content 0), J.
  rewrite segments_text by lia. now rewrite drop_0.
Qed.

(** Reading again a file that holds a text as [write] stores it. *)
Lemma read_back (p text bytes : string) (v : World) :
  bytes_at (resolve p) (fs v) = inr bytes ->
  decode bytes = Some (with_linesep linesep text) ->
  linesep = LF \/ linesep = CRLF ->
  no_cr text = true ->
  read_file p v = (Ret text, v).
Proof.
  intros B D Hl Hc. unfold read_file. rewrite B, D.
  now rewrite (universal_with_linesep _ _ Hl Hc).
Qed.

Lemma patch_statement (pre ws1 ws2 args post : string) :
  all isspace ws1 = true ->
  all isspace ws2 = true ->
  all (member (Except ")"%char)) args = true ->
  (forall i, i < String.length pre ->
     match_here find_dependency_fmt
       (drop i (pre ++ statement ws1 ws2 args ++ post)) = None) ->
  patch_content (pre ++ statement ws1 ws2 args ++ post)
  = (pre ++ "# " ++ statement ws1 ws2 args ++ patch_content post)%string.
Proof.
  intros H1 H2 Ha Hpre. unfold patch_content.
  rewrite re_sub_prefix by exact Hpre. f_equal.
  pose proof (match_statement ws1 ws2 args post H1 H2 Ha) as M.
  assert (L : 0 < String.length (statement ws1 ws2 args))
    by (rewrite statement_length; lia).
  destruct (String.length (statement ws1 ws2 args)) as [|k] eqn:E; [lia|].
  rewrite (re_sub_hit _ _ _ _ M), <- E.
  rewrite take_append, drop_append.
  cbn [comment_out expand]. now rewrite append_nil_r.
Qed.

(** C3 (amended).  Take a statement [find_dependency(fmt ...)] in a
    content, with any white space before the parenthesis and after it
    and any arguments up to the closing parenthesis.

    When no match starts before it, the patch copies what comes before
    it, writes the marker [# ] and the statement itself, word for word,
    and patches what follows in the same way; when the statement lies on
    one line, that line of the new content is what stood before the
    statement on its line, the marker, the statement and the rest of the
    line, and the lines before are those of the content.

    In general the statement is a match of the scan or the end of a
    match that starts before it: the new content holds the pieces before
    that match as the scan renders them, the marker, and the match word
    for word, which ends with the statement; a match on one line gives
    one line that holds the marker and then the match.

    When the bytes of the file found decode and the new text encodes,
    the patch step returns and the file holds the new text, encoded,
    with [os.linesep] as its line end; read again, it gives the new
    text.  For every content, each match that the scan replaces is such
    a statement, and is written as [# ] and the statement. *)
Theorem statement_is_commented_out :
  (forall pre m post,
     is_statement m ->
     ((forall i, i < String.length pre ->
         match_here find_dependency_fmt (drop i (pre ++ m ++ post)) = None) ->
      patch_content (pre ++ m ++ post)
      = (pre ++ "# " ++ m ++ patch_content post)%string
      /\ (no_line_break m = true ->
          lines (patch_content (pre ++ m ++ post))
          = removelast (lines pre)
            ++ (last_line pre ++ "# " ++ m
                ++ first_line (patch_content post))%string
               :: tl (lines (patch_content post))))
     /\ exists before u,
          let done := join_all (map (seg_render comment_out) before) in
          pre = (join_all (map seg_text before) ++ u)%string
          /\ is_statement (u ++ m)
          /\ segments find_dependency_fmt 0 (pre ++ m ++ post)
             = before ++ Hit (u ++ m) :: segments find_dependency_fmt 0 post
          /\ patch_content (pre ++ m ++ post)
             = (done ++ "# " ++ (u ++ m) ++ patch_content post)%string
          /\ (no_line_break (u ++ m) = true ->
              lines (patch_content (pre ++ m ++ post))
              = removelast (lines done)
                ++ (last_line done ++ "# " ++ (u ++ m)
                    ++ first_line (patch_content post))%string
                   :: tl (lines (patch_content post))))
  /\ (forall install_dir is_windows w c f bytes raw bytes',
        find_config (walked install_dir w) = Some (String c f) ->
        bytes_at (resolve (String c f)) (fs w) = inr bytes ->
        decode bytes = Some raw ->
        encode (with_linesep linesep
                  (patch_content (universal_newlines raw))) = Some bytes' ->
        let after := snd (patch_thread_system_config install_dir
                            is_windows w) in
        fst (patch_thread_system_config install_dir is_windows w) = Ret tt
        /\ bytes_at (resolve (String c f)) (fs after) = inr bytes'
        /\ (linesep = LF \/ linesep = CRLF ->
            decode bytes'
            = Some (with_linesep linesep
                      (patch_content (universal_newlines raw))) ->
            read_file (String c f) after
            = (Ret (patch_content (universal_newlines raw)), after)))
  /\ (forall content,
        join_all (map (seg_render comment_out)
                    (segments find_dependency_fmt 0 content))
        = patch_content content
        /\ forall m,
             In (Hit m) (segments find_dependency_fmt 0 content) ->
             is_statement m
             /\ seg_render comment_out (Hit m) = ("# " ++ m)%string).
Proof.
  assert (One : forall a x b,
    no_line_break x = true ->
    lines (a ++ "# " ++ x ++ b)
    = removelast (lines a)
      ++ (last_line a ++ "# " ++ x ++ first_line b)%string :: tl (lines b)).
  { intros a x b Hx.
    change (a ++ "# " ++ x ++ b)%string
      with (a ++ ("# " ++ x) ++ b)%string.
    rewrite lines_around; [reflexivity|].
    unfold no_line_break in *. simpl. exact Hx. }
  split; [|split].
  - intros pre m post Hm. split.
    + intros Hpre.
      assert (P : patch_content (pre ++ m ++ post)
                  = (pre ++ "# " ++ m ++ patch_content post)%string).
      { destruct Hm as (ws1 & ws2 & args & -> & H1 & H2 & Ha).
        now apply patch_statement. }
      split; [exact P|]. intros Hl. rewrite P. now apply One.
    + destruct (scan_statement m post Hm _ pre (le_n _))
        as (before & u & Hpre & Hu & Hseg).
      exists before, u. cbv zeta.
      assert (P : patch_content (pre ++ m ++ post)
                  = (join_all (map (seg_render comment_out) before)
                     ++ "# " ++ (u ++ m) ++ patch_content post)%string).
      { unfold patch_content, re_sub.
        rewrite <- !segments_render, Hseg, map_app, join_all_app.
        cbn [map join_all seg_render comment_out expand].
        now rewrite append_nil_r, !append_assoc. }
      repeat split; try assumption.
      intros Hl. rewrite P. now apply One.
  - intros install_dir is_windows w c f bytes raw bytes' F R D N.
    destruct (patch_rewrites_file _ is_windows _ _ _ _ _ _ F R D N)
      as (t & -> & _ & R' & _).
    cbv zeta. cbn [fst snd]. split; [reflexivity|]. split; [exact R'|].
    intros Hl D'. apply (read_back _ _ bytes'); auto.
    unfold no_cr. rewrite all_patch_content by reflexivity.
    exact (universal_newlines_no_cr _ _ (le_n _)).
  - intros content. split; [apply segments_render|].
    intros m Hm. apply segments_hits in Hm as (s & n & Hs & ->).
    split; [now apply match_statement_inv|].
    cbn [seg_render comment_out expand]. now rewrite append_nil_r.
Qed.

Lemma no_statement_no_match (content : string) :
  ~ has_statement content ->
  forall i, match_here find_dependency_fmt (drop i content) = None.
Proof.
  intros H i.
  destruct (match_here find_dependency_fmt (drop i content)) as [n|] eqn:E;
    [|reflexivity].
  elim H.
  exists (take i content), (take n (drop i content)),
    (drop n (drop i content)).
  split; [now apply match_statement_inv|].
  now rewrite !take_drop.
Qed.

Lemma no_match_no_statement (content : string) :
  (forall i, match_here find_dependency_fmt (drop i content) = None) ->
  ~ has_statement content.
Proof.
  intros H (pre & m & post & (ws1 & ws2 & args & -> & H1 & H2 & Ha) & ->).
  specialize (H (String.length pre)).
  rewrite drop_append, match_statement in H by assumption.
  discriminate H.
Qed.

(** C10 (amended).  A content no part of which is a statement
    [find_dependency(fmt ...)] is written back as the text that was
    read.  The file then holds that text, encoded, with [os.linesep] as
    its line end, and the file system after the patch step is the one
    before it exactly when these are the bytes the file held; they are
    on a host whose line end is LF when the file holds no carriage
    return and its text encodes to its bytes.  In general the content is
    cut into characters that are copied and matches that are replaced:
    the pieces put together give the content, the pieces rendered give
    what is written, a copied piece is rendered as itself, and a
    replaced piece is a statement [find_dependency(fmt ...)] rendered as
    [# ] and the statement. *)
Theorem patch_preserves_the_rest (content : string) :
  (~ has_statement content ->
   patch_content content = content
   /\ forall install_dir is_windows w c f bytes raw,
        find_config (walked install_dir w) = Some (String c f) ->
        bytes_at (resolve (String c f)) (fs w) = inr bytes ->
        decode bytes = Some raw ->
        universal_newlines raw = content ->
        let after := snd (patch_thread_system_config install_dir
                            is_windows w) in
        (forall bytes',
           encode (with_linesep linesep content) = Some bytes' ->
           fst (patch_thread_system_config install_dir is_windows w)
           = Ret tt
           /\ bytes_at (resolve (String c f)) (fs after) = inr bytes'
           /\ (bytes' = bytes <-> fs after = fs w))
        /\ (linesep = LF -> no_cr raw = true -> encode raw = Some bytes ->
            fst (patch_thread_system_config install_dir is_windows w)
            = Ret tt
            /\ fs after = fs w))
  /\ (let segs := segments find_dependency_fmt 0 content in
      join_all (map seg_text segs) = content
      /\ join_all (map (seg_render comment_out) segs) = patch_content content
      /\ forall g, In g segs ->
           match g with
           | Kept t => seg_render comment_out g = t
           | Hit m =>
               is_statement m
               /\ seg_render comment_out g = ("# " ++ m)%string
           end).
Proof.
  split.
  - intros Hno.
    assert (P : patch_content content = content)
      by (apply re_sub_none, no_statement_no_match; exact Hno).
    split; [exact P|].
    intros install_dir is_windows w c f bytes raw F R D U.
    assert (Gen : forall bytes',
      encode (with_linesep linesep content) = Some bytes' ->
      fst (patch_thread_system_config install_dir is_windows w) = Ret tt
      /\ bytes_at (resolve (String c f))
           (fs (snd (patch_thread_system_config install_dir is_windows w)))
         = inr bytes'
      /\ (bytes' = bytes
          <-> fs (snd (patch_thread_system_config install_dir is_windows w))
              = fs w)).
    { intros bytes' N. rewrite <- P, <- U in N.
      destruct (patch_rewrites_file _ is_windows _ _ _ _ _ _ F R D N)
        as (t & -> & _ & R' & Same).
      cbn [fst snd fs emit set_fs].
      split; [reflexivity|]. split; [exact R'|]. split; [exact Same|].
      intros E. rewrite E, R in R'. now injection R' as ->. }
    cbv zeta. split; [exact Gen|].
    intros Hl Hc N.
    destruct (Gen bytes) as (Ho & _ & Same).
    { rewrite <- U, Hl, with_linesep_LF.
      now rewrite (universal_newlines_id _ Hc). }
    split; [exact Ho | now apply Same].
  - cbv zeta. split; [|split].
    + rewrite segments_text by lia. apply drop_0.
    + apply segments_render.
    + intros [t|m] Hg; [reflexivity|].
      apply segments_hits in Hg as (s & n & Hs & ->).
      split; [now apply match_statement_inv|].
      cbn [seg_render comment_out expand]. now rewrite append_nil_r.
Qed.

(** ** The build directory *)

Lemma makedirs_inv : forall q t t',
  makedirs_at q t = inr t' -> lookup q t = None /\ no_file_on q t.
Proof.
  induction q as [|c q IH]; intros t t' H; simpl in H; [discriminate|].
  destruct t as [s|es]; [discriminate|].
  destruct (entry c es) as [x|] eqn:E.
  - destruct (makedirs_at q x) as [e|x'] eqn:K; [discriminate|].
    destruct (IH _ _ K) as [L N]. split.
    + simpl. now rewrite E.
    + intros [|k] s; simpl; [discriminate|]. rewrite E. apply N.
  - split.
    + simpl. now rewrite E.
    + intros [|k] s; simpl; [discriminate|]. rewrite E. discriminate.
Qed.

Lemma rmtree_inv : forall q t t',
  rmtree_at q t = inr t' -> q <> [] /\ exists es, lookup q t = Some (Dir es).
Proof.
  induction q as [|c q IH]; intros t t' H; simpl in H; [discriminate|].
  split; [discriminate|].
  destruct t as [s|es]; [discriminate|].
  destruct (entry c es) as [x|] eqn:E; [|discriminate].
  simpl. rewrite E. destruct q as [|d q].
  - destruct x as [s|es']; [discriminate|]. simpl. eauto.
  - destruct (rmtree_at (d :: q) x) as [e|x'] eqn:K; [discriminate|].
    now destruct (IH _ _ K) as [_ L].
Qed.

Lemma make_build_dir_cases (build_dir : string) (w : World) :
  let q := resolve build_dir in
  (dir_or_absent q (fs w)
   /\ exists t0 t,
        (if present build_dir w then rmtree_at q (fs w) = inr t0
         else t0 = fs w)
        /\ makedirs_at q t0 = inr t
        /\ lookup q t = Some (Dir [])
        /\ make_build_dir build_dir w = (Ret tt, set_fs t w))
  \/ (~ dir_or_absent q (fs w)
      /\ exists e, make_build_dir build_dir w = (Raise (OSError e), w)).
Proof.
  intros q.
  unfold make_build_dir, bind, path_exists, rmtree, makedirs, lift_fs, ret.
  unfold present. fold q.
  destruct (lookup q (fs w)) as [n|] eqn:L.
  - destruct (rmtree_at q (fs w)) as [e|t0] eqn:R.
    + right. split; [|eauto].
      intros [[Hq [es Hes]]|[Hn _]]; [|congruence].
      rewrite L in Hes. destruct (rmtree_ok q (fs w) es Hq) as (t' & R' & _);
        congruence.
    + left. destruct (rmtree_inv _ _ _ R) as [Hq [es Hes]].
      split; [left; eauto|].
      destruct (rmtree_ok q (fs w) es Hq Hes) as (t' & R' & L' & N').
      assert (t' = t0) as -> by congruence.
      destruct (makedirs_ok _ _ L' N') as [t M].
      exists t0, t. cbn [fs set_fs]. rewrite M.
      repeat split; eauto using makedirs_lookup.
  - destruct (makedirs_at q (fs w)) as [e|t] eqn:M.
    + right. split; [|eauto].
      intros [[_ [es Hes]]|[_ N]]; [congruence|].
      destruct (makedirs_ok _ _ L N). congruence.
    + left. destruct (makedirs_inv _ _ _ M) as [_ N].
      split; [right; auto|].
      exists (fs w), t. repeat split; eauto using makedirs_lookup.
Qed.

Lemma setup_dependency_unfold
  (name repo_url install_dir build_type : string)
  (cmake_args : list string) (workspace_dir : string) (w : World) :
  setup_dependency name repo_url install_dir build_type cmake_args
    workspace_dir w
  = bind (checkout name repo_url workspace_dir)
      (fun _ =>
         bind (make_build_dir (build_dir_of workspace_dir name))
           (fun _ =>
              configure_build_install name build_type cmake_args
                (build_dir_of workspace_dir name)))
      (emit (Print ("=== Setting up " ++ name ++ " ===")) w).
Proof. reflexivity. Qed.

(** C8 (amended).  Once the checkout step of a setup has returned:
    when [<name>/build] is a directory, or is absent with no file in the
    way of it, the build directory is removed if it exists and then
    created, so that configure starts in a world where it exists and is
    empty, whatever it held before; in every other case (a file stands
    at the path or in the way of it) the call raises and the setup ends
    there, before any configure. *)
Theorem build_dir_is_recreated
  (name repo_url install_dir build_type : string)
  (cmake_args : list string) (workspace_dir : string) (w w1 : World) :
  checkout name repo_url workspace_dir
    (emit (Print ("=== Setting up " ++ name ++ " ===")) w) = (Ret tt, w1) ->
  let build_dir := build_dir_of workspace_dir name in
  let q := resolve build_dir in
  (dir_or_absent q (fs w1) ->
   exists t0 t,
     (if present build_dir w1 then rmtree_at q (fs w1) = inr t0
      else t0 = fs w1)
     /\ makedirs_at q t0 = inr t
     /\ lookup q t = Some (Dir [])
     /\ make_build_dir build_dir w1 = (Ret tt, set_fs t w1)
     /\ setup_dependency name repo_url install_dir build_type cmake_args
          workspace_dir w
        = configure_build_install name build_type cmake_args build_dir
            (set_fs t w1))
  /\ (~ dir_or_absent q (fs w1) ->
      exists e,
        make_build_dir build_dir w1 = (Raise (OSError e), w1)
        /\ setup_dependency name repo_url install_dir build_type cmake_args
             workspace_dir w = (Raise (OSError e), w1)).
Proof.
  intros Hc build_dir q.
  assert (U : forall r,
    make_build_dir build_dir w1 = r ->
    setup_dependency name repo_url install_dir build_type cmake_args
      workspace_dir w
    = match r with
      | (Ret _, w2) =>
          configure_build_install name build_type cmake_args build_dir w2
      | (Exit c, w2) => (Exit c, w2)
      | (Raise e, w2) => (Raise e, w2)
      end).
  { intros r <-. rewrite setup_dependency_unfold. unfold bind at 1.
    rewrite Hc. reflexivity. }
  destruct (make_build_dir_cases build_dir w1)
    as [(D & t0 & t & R & M & L & E)|(D & e & E)]; fold q in D.
  - split; [|now intros N].
    intros _. exists t0, t. rewrite (U _ E). auto.
  - split; [now intros N|].
    intros _. exists e. rewrite (U _ E). auto.
Qed.

(** ** The order of a run *)

Lemma split_unique {A : Type} (x : A) : forall l1 l2 a b,
  ~ In x l1 -> ~ In x l2 -> l1 ++ x :: l2 = a ++ x :: b -> a = l1.
Proof.
  induction l1 as [|z l1 IH]; intros l2 a b N1 N2 H.
  - destruct a as [|y a]; [reflexivity|].
    injection H as <- H. elim N2. rewrite H. apply in_elt.
  - destruct a as [|y a]; injection H as -> H.
    + elim N1. now left.
    + f_equal. apply (IH l2 a b); auto. intros K. apply N1. now right.
Qed.

Lemma split_before_stop {A : Type} (x : A) : forall a b d s,
  ~ In x s -> a ++ x :: b = d ++ s -> exists b', d = a ++ x :: b'.
Proof.
  induction a as [|z a IH]; intros b d s N H.
  - destruct d as [|y d].
    + elim N. simpl in H. rewrite <- H. now left.
    + injection H as -> _. now exists d.
  - destruct d as [|y d].
    + elim N. simpl in H. rewrite <- H. right. apply in_elt.
    + injection H as -> H. destruct (IH _ _ _ N H) as [b' ->].
      now exists b'.
Qed.

Lemma follows_before (plan new : list event) (o : outcome unit)
  (x : event) (l1 l2 before after : list event) :
  Follows plan o new ->
  plan = l1 ++ x :: l2 -> ~ In x l1 -> ~ In x l2 ->
  (forall rest stop, Stopped rest o stop -> ~ In x stop) ->
  new = before ++ x :: after ->
  before = l1.
Proof.
  intros [[_ ->]|(done & rest & stop & Hp & -> & Hs)] -> N1 N2 Ns H.
  - exact (split_unique x _ _ _ _ N1 N2 H).
  - symmetry in H.
    destruct (split_before_stop x _ _ _ _ (Ns _ _ Hs) H) as [b' ->].
    rewrite <- app_assoc in Hp. cbn [app] in Hp.
    exact (split_unique x _ _ _ _ N1 N2 Hp).
Qed.

Lemma stop_has_no_banner (rest stop : list event) (o : outcome unit)
  (c : ascii) (line : string) :
  c <> "E"%char -> Stopped rest o stop -> ~ In (Print (String c line)) stop.
Proof.
  intros Hc Hs H. destruct Hs; simpl in H;
    repeat (destruct H as [H|H]); try discriminate H; try contradiction.
  injection H as E _. congruence.
Qed.

(** C6.  The events of every run follow one plan: the setup of
    [common_system] (its banner, the clone when the sources are missing,
    configure, build, install, all returning 0, and its closing line),
    then that of [thread_system], then the patch step, then the setup of
    [logger_system].  A run that goes through leaves exactly the plan; a
    run that stops leaves a beginning of it and then what made it stop.
    So the setup of [thread_system] never starts before the whole setup
    of [common_system] is in the trace, the patch step never before the
    whole setup of [thread_system], and the setup of [logger_system]
    never before the patch step is over.

    The four steps hand the world on in this order.  Each starts in the
    world the one before it left when that one returned, and a step that
    does not return ends the run where it stopped.  So the setup of
    [logger_system] starts in the world the patch step left: when that
    step found a file, the file there holds, encoded and with
    [os.linesep] as its line end, the text that was read with [# ] put
    before each match of the scan. *)
Theorem dependencies_are_set_up_in_order (args : Args) (w : World)
  (new : list event) :
  trace (snd (main args w)) = trace w ++ new ->
  (exists clone1 clone2 clone3 found,
     let common :=
       dependency_plan clone1 "common_system" common_url (build_type args)
         (common_args args) (cwd w) in
     let thread :=
       dependency_plan clone2 "thread_system" thread_url (build_type args)
         (thread_args args) (cwd w) in
     let patch := patch_plan found in
     let logger :=
       dependency_plan clone3 "logger_system" logger_url (build_type args)
         (logger_args args) (cwd w) in
     Follows (common ++ thread ++ patch ++ logger) (fst (main args w)) new
     /\ (fst (main args w) = Ret tt ->
         new = common ++ thread ++ patch ++ logger)
     /\ (forall before after,
           new = before ++ Print "=== Setting up thread_system ===" :: after
           -> before = common)
     /\ (forall before after,
           new = before
                 ++ Print "Patching thread_system-config.cmake..." :: after
           -> before = common ++ thread)
     /\ (forall before after,
           new = before ++ Print "=== Setting up logger_system ===" :: after
           -> before = common ++ thread ++ patch))
  /\ (forall o1 w1,
        setup_common args (cwd w) w = (o1, w1) ->
        (o1 <> Ret tt -> main args w = (o1, w1))
        /\ forall o2 w2,
             o1 = Ret tt ->
             setup_thread args (cwd w) w1 = (o2, w2) ->
             (o2 <> Ret tt -> main args w = (o2, w2))
             /\ forall o3 w3,
                  o2 = Ret tt ->
                  patch_thread_system_config (thread_install args)
                    (String.eqb (os args) "Windows") w2 = (o3, w3) ->
                  (o3 <> Ret tt -> main args w = (o3, w3))
                  /\ (o3 = Ret tt ->
                      main args w = setup_logger args (cwd w) w3
                      /\ forall c f,
                           find_config (walked (thread_install args) w2)
                           = Some (String c f) ->
                           exists bytes raw bytes',
                             bytes_at (resolve (String c f)) (fs w2)
                             = inr bytes
                             /\ decode bytes = Some raw
                             /\ encode
                                  (with_linesep linesep
                                     (join_all
                                        (map (fun g =>
                                                match g with
                                                | Kept t => t
                                                | Hit m => ("# " ++ m)%string
                                                end)
                                           (segments find_dependency_fmt 0
                                              (universal_newlines raw)))))
                                = Some bytes'
                             /\ bytes_at (resolve (String c f)) (fs w3)
                                = inr bytes')).
Proof.
  intros Hnew. split.
  { destruct (main_traces args w) as (c1 & c2 & c3 & found & new' & Ht & Hf).
    assert (new' = new) as ->
      by (rewrite Hnew in Ht; now apply app_inv_head in Ht).
    exists c1, c2, c3, found. cbv zeta.
    unfold main_plan in Hf.
    split; [exact Hf|]. split.
    { intros Ho.
      destruct Hf as [[_ ->]|(done & rest & stop & _ & _ & Hs)];
        [reflexivity|].
      apply Stopped_not_ret in Hs. contradiction. }
    split; [|split]; intros before after H.
    - eapply (follows_before _ _ _ _ _ _ _ _ Hf); [| | | | exact H].
      + reflexivity.
      + not_in_plan.
      + not_in_plan.
      + intros rest stop. now apply stop_has_no_banner.
    - eapply (follows_before _ _ _ _ _ _ _ _ Hf); [| | | | exact H].
      + now rewrite <- !app_assoc.
      + not_in_plan.
      + not_in_plan.
      + intros rest stop. now apply stop_has_no_banner.
    - eapply (follows_before _ _ _ _ _ _ _ _ Hf); [| | | | exact H].
      + now rewrite <- !app_assoc.
      + not_in_plan.
      + not_in_plan.
      + intros rest stop. now apply stop_has_no_banner. }
  intros o1 w1 E1. rewrite main_unfold. unfold bind. rewrite E1.
  split; [intros N; destruct o1 as [[]|k|e]; [now elim N|reflexivity..]|].
  intros o2 w2 -> E2. cbv beta iota. rewrite E2.
  split; [intros N; destruct o2 as [[]|k|e]; [now elim N|reflexivity..]|].
  intros o3 w3 -> E3. cbv beta iota. rewrite E3.
  split; [intros N; destruct o3 as [[]|k|e]; [now elim N|reflexivity..]|].
  intros ->. split; [reflexivity|].
  intros c f F.
  destruct (patch_cases _ (String.eqb (os args) "Windows") _ _ _ F)
    as [(e & _ & P)|[(b & _ & _ & P)|[(b & r & o & _ & _ & _ & _ & P)
       |(bytes & raw & bytes' & t & B & D & N & S & P)]]];
    rewrite E3 in P; try discriminate P.
  injection P as ->.
  exists bytes, raw, bytes'. split; [exact B|]. split; [exact D|]. split.
  - rewrite <- N. do 2 f_equal.
    unfold patch_content, re_sub. rewrite <- segments_render.
    f_equal. apply map_ext. intros [u|m]; [reflexivity|].
    cbn [seg_render comment_out expand]. now rewrite append_nil_r.
  - cbn [fs emit set_fs].
    destruct (store_ok _ _ _ bytes' (bytes_at_inv _ _ _ B))
      as (t' & S' & L & _).
    rewrite S in S'. injection S' as <-. now apply bytes_at_file.
Qed.

(** ** Checks that compute *)

Lemma drop_all : forall s i, String.length s <= i -> drop i s = "".
Proof.
  induction s as [|c s IH]; intros i H; [apply drop_nil|].
  destruct i as [|i]; simpl in H; [lia|]. apply IH. lia.
Qed.

Lemma misses_spec (p : pattern) : forall n s,
  misses p n s = true ->
  forall i, i < n -> match_here p (drop i s) = None.
Proof.
  induction n as [|n IH]; intros s H i Hi; [lia|].
  simpl in H. destruct (match_here p s) as [m|] eqn:E; [discriminate|].
  destruct i as [|i]; [now rewrite drop_0|].
  destruct s as [|c s]; [exact E|].
  simpl. apply IH; [exact H | lia].
Qed.

Lemma misses_everywhere (p : pattern) (s : string) :
  misses p (S (String.length s)) s = true ->
  forall i, match_here p (drop i s) = None.
Proof.
  intros H i. destruct (Nat.lt_ge_cases i (S (String.length s))) as [Hi|Hi].
  - now apply (misses_spec p _ _ H).
  - rewrite drop_all by lia.
    rewrite <- (drop_all s (String.length s)) by lia.
    apply (misses_spec p _ _ H). lia.
Qed.

(* ================================================================= *)
(** * Further properties *)

(** ** What the patch does to a content *)

Lemma render_length (segs : list segment) :
  String.length (join_all (map (seg_render comment_out) segs))
  = String.length (join_all (map seg_text segs))
    + 2 * List.length (filter is_hit segs).
Proof.
  induction segs as [|[t|m] segs IH]; [reflexivity| |].
  - cbn [map join_all filter is_hit seg_render seg_text].
    rewrite !length_append, IH. lia.
  - cbn [map join_all filter is_hit seg_render seg_text comment_out expand
           List.length].
    rewrite !length_append, IH. simpl String.length. lia.
Qed.

Lemma patch_length (content : string) :
  String.length (patch_content content)
  = String.length content + 2 * hits content.
Proof.
  unfold patch_content, re_sub, hits.
  rewrite <- segments_render, render_length, segments_text by lia.
  now rewrite drop_0.
Qed.

Lemma no_hit_no_match (p : pattern) : forall s,
  filter is_hit (segments p 0 s) = [] ->
  forall i, match_here p (drop i s) = None.
Proof.
  induction s as [|c s IH]; intros H i.
  - rewrite drop_nil. simpl in H.
    now destruct (match_here p "") as [n|].
  - simpl in H. destruct (match_here p (String c s)) as [[|n]|] eqn:E;
      try discriminate H.
    destruct i as [|i]; [exact E|]. simpl. now apply IH.
Qed.

Lemma hits_0_no_statement (content : string) :
  hits content = 0 -> ~ has_statement content.
Proof.
  unfold hits. intros H. apply no_match_no_statement, no_hit_no_match.
  now apply length_zero_iff_nil.
Qed.

Lemma no_statement_unchanged (content : string) :
  ~ has_statement content -> patch_content content = content.
Proof. intros H. now apply re_sub_none, no_statement_no_match. Qed.

(** X1.  The patch adds two characters, the marker, for each statement
    it replaces, and nothing else: the patched content is as much longer
    than the content as twice the number of replaced statements. *)
Theorem patch_adds_two_characters_per_statement (content : string) :
  String.length (patch_content content)
  = String.length content + 2 * hits content.
Proof. apply patch_length. Qed.

(** X2.  The patch leaves a content as it is exactly when no part of
    the content is a statement [find_dependency(fmt ...)]: a content that
    holds one always comes out changed. *)
Theorem patch_changes_exactly_contents_with_a_statement (content : string) :
  patch_content content = content <-> ~ has_statement content.
Proof.
  split; [|apply no_statement_unchanged].
  intros E. apply hits_0_no_statement.
  pose proof (patch_length content) as L. rewrite E in L. lia.
Qed.

Lemma in_join_all (f : segment -> string) (g : segment) :
  forall l, In g l ->
  exists a b, join_all (map f l) = (a ++ f g ++ b)%string.
Proof.
  intros l H. apply in_split in H as (l1 & l2 & ->).
  exists (join_all (map f l1)), (join_all (map f l2)).
  now rewrite map_app, join_all_app.
Qed.

Lemma statement_survives (content : string) :
  has_statement content -> has_statement (patch_content content).
Proof.
  intros H.
  destruct (filter is_hit (segments find_dependency_fmt 0 content))
    as [|g l] eqn:F.
  - elim (no_match_no_statement content); [|exact H].
    now apply no_hit_no_match.
  - assert (G : In g (filter is_hit (segments find_dependency_fmt 0 content)))
      by (rewrite F; now left).
    apply filter_In in G as [G Hg].
    destruct g as [t|m]; [discriminate Hg|].
    destruct (in_join_all (seg_render comment_out) _ _ G) as (a & b & J).
    apply segments_hits in G as (s & n & Hs & ->).
    exists (a ++ "# ")%string, (take n s), b. split.
    + now apply match_statement_inv.
    + unfold patch_content, re_sub. rewrite <- segments_render, J.
      cbn [seg_render comment_out expand].
      now rewrite append_nil_r, !append_assoc.
Qed.

(** X3.  The patch is not idempotent.  A content that holds a statement
    still holds one once patched, so that patching it again changes it
    again: each further patch makes it at least two characters longer. *)
Theorem patching_again_changes_again (content : string) :
  has_statement content ->
  has_statement (patch_content content)
  /\ patch_content (patch_content content) <> patch_content content
  /\ String.length content + 4
     <= String.length (patch_content (patch_content content)).
Proof.
  intros H. pose proof (statement_survives _ H) as H'.
  split; [exact H'|]. split.
  - intros E. apply (hits_0_no_statement (patch_content content)); [|exact H'].
    pose proof (patch_length (patch_content content)) as L.
    rewrite E in L. lia.
  - rewrite !patch_length.
    assert (hits content <> 0) by (intros Z; now apply hits_0_no_statement in Z).
    assert (hits (patch_content content) <> 0)
      by (intros Z; now apply hits_0_no_statement in Z).
    lia.
Qed.

(** ** The search for the configuration file *)

Lemma find_config_finds : forall t top,
  has_file config_name t = true -> find_config (walk top t) <> None.
Proof.
  induction t as [s|es IH] using node_induction; intros top H.
  - discriminate H.
  - cbn [has_file] in H. cbn [walk find_config].
    destruct (existsb (String.eqb config_name) (filenames es));
      [discriminate|].
    cbn [orb] in H. clear - IH H.
    induction es as [|e es IHes]; [discriminate H|].
    cbn [existsb] in H. inversion IH as [|? ? Pe Pes]; subst.
    cbn [flat_map]. rewrite find_config_app.
    destruct (has_file config_name (snd e)) eqn:He.
    + destruct (snd e) as [s|es'] eqn:E; [discriminate He|].
      specialize (Pe (path_join top (fst e)) eq_refl).
      destruct (find_config (walk (path_join top (fst e)) (Dir es')));
        [discriminate | contradiction].
    + cbn [orb] in H.
      destruct (find_config
                  match snd e with
                  | File _ => []
                  | Dir _ => walk (path_join top (fst e)) (snd e)
                  end); [discriminate | now apply IHes].
Qed.

(** X4.  The search of the patch step is exact: it finds a file, and so
    goes on to patch instead of warning that none was found, exactly when
    a file called [thread_system-config.cmake] lies somewhere under the
    install directory. *)
Theorem config_is_found_exactly_when_present (install_dir : string)
  (w : World) :
  find_config (walked install_dir w) = None
  <-> no_config_under install_dir w.
Proof.
  split; [|apply find_config_none].
  unfold no_config_under, walked.
  destruct (lookup (resolve install_dir) (fs w)) as [t|]; [|trivial].
  intros H. destruct (has_file config_name t) eqn:F; [|reflexivity].
  now apply (find_config_finds t install_dir) in F.
Qed.

(** ** What the file-system calls leave alone *)

Lemma entry_set_entry_other (c d : string) (x : node)
  (es : list (string * node)) :
  c <> d -> entry d (set_entry c x es) = entry d es.
Proof.
  intros N. induction es as [|[n y] es IH]; simpl.
  - apply String.eqb_neq in N. now rewrite N.
  - destruct (String.eqb n c) eqn:E; simpl.
    + apply String.eqb_eq in E; subst n.
      apply String.eqb_neq in N. now rewrite N.
    + now rewrite IH.
Qed.

Lemma entry_remove_entry_other (c d : string) (es : list (string * node)) :
  c <> d -> entry d (remove_entry c es) = entry d es.
Proof.
  intros N. induction es as [|[n y] es IH]; simpl; [reflexivity|].
  destruct (String.eqb n c) eqn:E; simpl.
  - apply String.eqb_eq in E; subst n.
    apply String.eqb_neq in N. now rewrite N.
  - now rewrite IH.
Qed.

Lemma lookup_fresh_diverges (q q' : path) :
  diverges q q' -> lookup q' (fresh q) = None.
Proof.
  induction 1 as [c d q q' N|c q q' D IH]; simpl.
  - apply String.eqb_neq in N. now rewrite N.
  - now rewrite String.eqb_refl.
Qed.

Lemma rmtree_frame (q q' : path) :
  diverges q q' ->
  forall t t', rmtree_at q t = inr t' -> lookup q' t' = lookup q' t.
Proof.
  induction 1 as [c d q q' N|c q q' D IH]; intros t t' H;
    simpl in H; destruct t as [s|es]; try discriminate H;
    destruct (entry c es) as [x|] eqn:E; try discriminate H.
  - destruct q as [|a q].
    + destruct x; [discriminate H|]. injection H as <-.
      simpl. now rewrite entry_remove_entry_other.
    + destruct (rmtree_at (a :: q) x) as [e|x']; [discriminate H|].
      injection H as <-. simpl. now rewrite entry_set_entry_other.
  - destruct q as [|a q]; [inversion D|].
    destruct (rmtree_at (a :: q) x) as [e|x'] eqn:R; [discriminate H|].
    injection H as <-. simpl. rewrite entry_set_entry, E.
    now apply IH.
Qed.

Lemma makedirs_frame (q q' : path) :
  diverges q q' ->
  forall t t', makedirs_at q t = inr t' -> lookup q' t' = lookup q' t.
Proof.
  induction 1 as [c d q q' N|c q q' D IH]; intros t t' H;
    simpl in H; destruct t as [s|es]; try discriminate H;
    destruct (entry c es) as [x|] eqn:E.
  - destruct (makedirs_at q x) as [e|x']; [discriminate H|].
    injection H as <-. simpl. now rewrite entry_set_entry_other.
  - injection H as <-. simpl. now rewrite entry_set_entry_other.
  - destruct (makedirs_at q x) as [e|x'] eqn:R; [discriminate H|].
    injection H as <-. simpl. rewrite entry_set_entry, E. now apply IH.
  - injection H as <-. simpl. rewrite entry_set_entry, E.
    now apply lookup_fresh_diverges.
Qed.

Lemma store_frame (q q' : path) (s : string) :
  diverges q q' ->
  forall t t', store_at q s t = inr t' -> lookup q' t' = lookup q' t.
Proof.
  induction 1 as [c d q q' N|c q q' D IH]; intros t t' H;
    simpl in H; destruct t as [u|es]; try discriminate H;
    destruct (entry c es) as [x|] eqn:E.
  - destruct (store_at q s x) as [e|x']; [discriminate H|].
    injection H as <-. simpl. now rewrite entry_set_entry_other.
  - destruct q; [|discriminate H].
    injection H as <-. simpl. now rewrite entry_set_entry_other.
  - destruct (store_at q s x) as [e|x'] eqn:R; [discriminate H|].
    injection H as <-. simpl. rewrite entry_set_entry, E. now apply IH.
  - inversion D; subst; discriminate H.
Qed.

(** X5.  Making the build directory anew touches nothing beside it: when
    the step returns, every path that parts from [<name>/build] at some
    name (the sources next to it, the other dependencies, the install
    trees) names what it named before, and nothing was printed or run. *)
Theorem build_dir_step_leaves_the_rest (build_dir : string) (w w2 : World)
  (q' : path) :
  make_build_dir build_dir w = (Ret tt, w2) ->
  diverges (resolve build_dir) q' ->
  lookup q' (fs w2) = lookup q' (fs w)
  /\ trace w2 = trace w /\ spawned w2 = spawned w.
Proof.
  intros H D.
  destruct (make_build_dir_cases build_dir w)
    as [(_ & t0 & t & R & M & _ & E)|(_ & e & E)];
    rewrite E in H; [|discriminate H].
  injection H as <-. cbn [fs set_fs trace spawned]. split; [|auto].
  rewrite (makedirs_frame _ _ D _ _ M).
  destruct (present build_dir w); [|now subst t0].
  exact (rmtree_frame _ _ D _ _ R).
Qed.

(** X6.  When the patch step has found a file and returns, it has
    rewritten that file and nothing else.  The bytes the file held
    decode, and the file then holds the patched form of the text that
    was read, encoded, with [os.linesep] as its line end; every path
    that parts from the file names what it named before; and the step
    has printed its three lines and run nothing. *)
Theorem patch_rewrites_only_the_file (install_dir : string)
  (is_windows : bool) (w w' : World) (c : ascii) (f : string) :
  find_config (walked install_dir w) = Some (String c f) ->
  patch_thread_system_config install_dir is_windows w = (Ret tt, w') ->
  (exists bytes raw bytes',
     bytes_at (resolve (String c f)) (fs w) = inr bytes
     /\ decode bytes = Some raw
     /\ encode (with_linesep linesep
                  (patch_content (universal_newlines raw))) = Some bytes'
     /\ bytes_at (resolve (String c f)) (fs w') = inr bytes')
  /\ (forall q', diverges (resolve (String c f)) q' ->
                 lookup q' (fs w') = lookup q' (fs w))
  /\ trace w'
     = trace w ++ [Print "Patching thread_system-config.cmake...";
                   Print ("Found config file: " ++ String c f);
                   Print "Patched config file successfully."]
  /\ spawned w' = spawned w.
Proof.
  intros F E.
  destruct (patch_cases _ is_windows _ _ _ F)
    as [(e & _ & P)|[(b & _ & _ & P)|[(b & r & o & _ & _ & _ & _ & P)
       |(bytes & raw & bytes' & t & B & D & N & S & P)]]];
    rewrite E in P; try discriminate P.
  injection P as ->. cbn [fs emit set_fs trace spawned].
  split; [|split; [|split]].
  - exists bytes, raw, bytes'. repeat split; try assumption.
    destruct (store_ok _ _ _ bytes' (bytes_at_inv _ _ _ B))
      as (t' & S' & L & _).
    rewrite S in S'. injection S' as <-. now apply bytes_at_file.
  - intros q' Dv. exact (store_frame _ _ _ Dv _ _ S).
  - unfold announced, emit. cbn [trace set_fs].
    now rewrite <- !app_assoc.
  - reflexivity.
Qed.

(** ** More on runs *)

Lemma main_follows (args : Args) (w : World) (new : list event) :
  trace (snd (main args w)) = trace w ++ new ->
  exists clone1 clone2 clone3 found,
    Follows (main_plan args (cwd w) clone1 clone2 clone3 found)
      (fst (main args w)) new.
Proof.
  intros Hnew.
  destruct (main_traces args w) as (c1 & c2 & c3 & found & new' & Ht & Hf).
  assert (new' = new) as ->
    by (rewrite Hnew in Ht; now apply app_inv_head in Ht).
  now exists c1, c2, c3, found.
Qed.

Lemma announced_print (line : string) (l : list event) :
  each_spawn_announced l -> each_spawn_announced (Print line :: l).
Proof.
  intros H [|x pre] cmd dir r post E; [discriminate E|].
  injection E as <- E. destruct (H _ _ _ _ _ E) as [pre' ->].
  now exists (Print line :: pre').
Qed.

Lemma announced_step (cmd : list string) (dir : string) (l : list event) :
  each_spawn_announced l -> each_spawn_announced (step_ok cmd dir ++ l).
Proof.
  intros H [|x [|y pre]] c d r post E; cbn in E.
  - discriminate E.
  - injection E as <- -> _ _ _. now exists [].
  - injection E as <- <- E. destruct (H _ _ _ _ _ E) as [pre' ->].
    now exists (running cmd :: Spawn cmd dir (Exited 0) :: pre').
Qed.

Lemma announced_dependency_plan (clone : bool)
  (name repo_url build_type : string) (cmake_args : list string)
  (workspace_dir : string) (l : list event) :
  each_spawn_announced l ->
  each_spawn_announced
    (dependency_plan clone name repo_url build_type cmake_args workspace_dir
     ++ l).
Proof.
  intros H. unfold dependency_plan. rewrite <- !app_assoc.
  apply announced_print.
  assert (T : each_spawn_announced
                (step_ok (cmd_cmake cmake_args)
                   (build_dir_of workspace_dir name)
                 ++ step_ok (build_cmd build_type)
                      (build_dir_of workspace_dir name)
                 ++ step_ok (install_cmd build_type)
                      (build_dir_of workspace_dir name)
                 ++ [Print ("=== " ++ name ++ " setup complete ===" ++ LF)]
                 ++ l)).
  { repeat apply announced_step. now apply announced_print. }
  destruct clone; [now apply announced_step | exact T].
Qed.

Lemma announced_main_plan (args : Args) (workspace_dir : string)
  (clone1 clone2 clone3 : bool) (found : option string) :
  each_spawn_announced
    (main_plan args workspace_dir clone1 clone2 clone3 found).
Proof.
  unfold main_plan.
  do 2 apply announced_dependency_plan.
  unfold patch_plan. cbn [app]. apply announced_print.
  assert (T : each_spawn_announced
                (dependency_plan clone3 "logger_system" logger_url
                   (build_type args) (logger_args args) workspace_dir)).
  { rewrite <- (app_nil_r (dependency_plan _ _ _ _ _ _)).
    apply announced_dependency_plan.
    intros [|x pre] c d r post E; discriminate E. }
  destruct found; cbn [app];
    [do 2 apply announced_print | apply announced_print]; exact T.
Qed.

Lemma spawn_in_stop (rest stop l post : list event) (o : outcome unit)
  (cmd : list string) (dir : string) (r : proc_result) :
  Stopped rest o stop -> stop = l ++ Spawn cmd dir r :: post ->
  l = [] /\ exists rest', rest = Spawn cmd dir (Exited 0) :: rest'.
Proof.
  intros Hs E. destruct Hs; destruct l as [|y l]; cbn [app] in E;
    try discriminate E.
  - injection E as <- <- _ _. eauto.
  - injection E as _ E. destruct l as [|z l]; [discriminate E|].
    injection E as _ E. destruct l; discriminate E.
  - injection E as <- <- _ _. eauto.
  - injection E as _ E. destruct l; discriminate E.
Qed.

Lemma follows_announced (plan new : list event) (o : outcome unit) :
  Follows plan o new ->
  each_spawn_announced plan -> each_spawn_announced new.
Proof.
  intros [[_ ->]|(done & rest & stop & -> & -> & Hs)] H; [exact H|].
  intros pre cmd dir r post E.
  apply app_eq_app in E as [l [[-> E]|[-> E]]].
  - destruct l as [|y l].
    + rewrite app_nil_r in *. symmetry in E.
      destruct (spawn_in_stop _ _ [] _ _ _ _ _ Hs E) as (_ & rest' & ->).
      eapply H. reflexivity.
    + injection E as <- _. eapply H. rewrite <- app_assoc. reflexivity.
  - destruct (spawn_in_stop _ _ _ _ _ _ _ _ Hs E) as (-> & rest' & ->).
    rewrite app_nil_r. eapply H. reflexivity.
Qed.

(** X7.  Each process of a run is launched right after its line
    [Running: <command>] was printed, and by nothing else: whatever the
    run, the event before a process is the line that announces it. *)
Theorem every_process_is_announced (args : Args) (w : World)
  (new pre post : list event) (cmd : list string) (dir : string)
  (r : proc_result) :
  trace (snd (main args w)) = trace w ++ new ->
  new = pre ++ Spawn cmd dir r :: post ->
  exists pre', pre = pre' ++ [running cmd].
Proof.
  intros Hnew E.
  destruct (main_follows _ _ _ Hnew) as (c1 & c2 & c3 & found & Hf).
  exact (follows_announced _ _ _ Hf (announced_main_plan _ _ _ _ _ _)
           _ _ _ _ _ E).
Qed.

(** X8.  A process that cannot be started is nobody's to catch:
    [run_command] handles the failure of a process that ran, not the
    error of one that did not.  In a run of [main] the announcement and
    the attempt are then the last two events, no error line follows, the
    exception leaves the script and the status of the run is 1. *)
Theorem process_that_cannot_start_is_uncaught (args : Args) (w : World)
  (new : list event) (cmd : list string) (dir : string) (e : oserror) :
  trace (snd (main args w)) = trace w ++ new ->
  In (Spawn cmd dir (NotStarted e)) new ->
  fst (main args w) = Raise (OSError e)
  /\ exit_status (fst (main args w)) = 1%Z
  /\ exists done,
       new = done ++ [running cmd; Spawn cmd dir (NotStarted e)].
Proof.
  intros Hnew H.
  destruct (main_follows _ _ _ Hnew) as (c1 & c2 & c3 & found & Hf).
  pose proof (follows_announced _ _ _ Hf (announced_main_plan _ _ _ _ _ _))
    as A.
  destruct Hf as [[_ ->]|(done & rest & stop & Hp & -> & Hs)].
  - apply main_plan_spawn in H as [H _]. discriminate H.
  - apply in_app_iff in H as [H|H].
    + assert (Hin : In (Spawn cmd dir (NotStarted e))
                      (main_plan args (cwd w) c1 c2 c3 found))
        by (rewrite Hp; apply in_app_iff; now left).
      apply main_plan_spawn in Hin as [Hin _]. discriminate Hin.
    + destruct Hs as [cmd' dir' n rest' Hn|cmd' dir' e' rest'|e' rest'
                      |rest'|rest'];
        cbn [In] in H; repeat (destruct H as [H|H]);
        try discriminate H; try contradiction.
      injection H as -> -> ->. split; [reflexivity|]. split; [reflexivity|].
      destruct (A done cmd dir (NotStarted e) [] eq_refl) as [pre' ->].
      exists pre'. now rewrite <- app_assoc.
Qed.

(** X9.  Once the arguments are parsed, a run ends with status 0 or 1
    and no other.  It calls [sys.exit] with 1 only, and then its last
    events are the announcement of a process, the process returning a
    status other than 0, and the error line.  The [CalledProcessError]
    of a failed process never leaves the script: [run_command] catches
    it, and it catches nothing else. *)
Theorem run_ends_with_status_0_or_1 (args : Args) (w : World)
  (new : list event) :
  trace (snd (main args w)) = trace w ++ new ->
  (exit_status (fst (main args w)) = 0%Z
   \/ exit_status (fst (main args w)) = 1%Z)
  /\ (forall code, fst (main args w) = Exit code ->
        code = 1%Z
        /\ exists done cmd dir n,
             n <> 0%Z
             /\ new = done ++ [running cmd; Spawn cmd dir (Exited n);
                               Print ("Error running command: "
                                      ++ exn_str (CalledProcessError cmd n))])
  /\ (forall cmd n, fst (main args w) <> Raise (CalledProcessError cmd n))
  /\ (forall cmd dir e v t,
        spawn (spawned v) cmd dir (fs v) = (NotStarted e, t) ->
        fst (run_command cmd dir v) = Raise (OSError e)).
Proof.
  intros Hnew.
  destruct (main_follows _ _ _ Hnew) as (c1 & c2 & c3 & found & Hf).
  pose proof (follows_announced _ _ _ Hf (announced_main_plan _ _ _ _ _ _))
    as A.
  assert (R : forall cmd dir e v t,
    spawn (spawned v) cmd dir (fs v) = (NotStarted e, t) ->
    fst (run_command cmd dir v) = Raise (OSError e)).
  { intros cmd dir e v t E.
    unfold run_command, bind, print, try_except, check_call.
    cbn [emit fs cwd spawned trace]. now rewrite E. }
  destruct Hf as [[-> _]|(done & rest & stop & Hp & -> & Hs)].
  - split; [now left|]. repeat split; auto; intros; discriminate.
  - destruct Hs as [cmd dir n rest' Hn|cmd dir e rest'|e rest'|rest'|rest'];
      (split; [now right|]); (split; [|split; [intros; discriminate|exact R]]);
      try (intros; discriminate).
    intros code [= <-]. split; [reflexivity|].
    destruct (A done cmd dir (Exited n)
                [Print ("Error running command: "
                        ++ exn_str (CalledProcessError cmd n))] eq_refl)
      as [pre' ->].
    exists pre', cmd, dir, n. split; [exact Hn|]. now rewrite <- app_assoc.
Qed.

(** ** More on the commands *)

Lemma filter_truthy_all (l : list string) :
  forallb truthy l = true -> filter truthy l = l.
Proof.
  induction l as [|a l IH]; cbn [forallb filter]; [reflexivity|].
  intros H. apply andb_true_iff in H as [-> H]. now rewrite IH.
Qed.

Lemma base_cmake_args_flags (args : Args) :
  base_cmake_args args
  = common_flags args
    ++ (if String.eqb (os args) "Linux" && String.eqb (compiler args) "gcc"
        then [pin_c; pin_cxx] else []).
Proof. reflexivity. Qed.

Lemma dependency_args_shape (args : Args) (name repo_url : string)
  (cmake_args : list string) :
  In (name, repo_url, cmake_args) (dependencies args) ->
  forallb truthy cmake_args = true
  /\ exists rest, cmake_args = common_flags args ++ rest.
Proof.
  intros [H|[H|[H|[]]]]; injection H as _ _ <-.
  - unfold common_args. rewrite base_cmake_args_flags, <- app_assoc.
    split; [|eauto].
    rewrite !forallb_app.
    now destruct (String.eqb (os args) "Linux"
                  && String.eqb (compiler args) "gcc").
  - rewrite thread_args_eq, base_cmake_args_flags, <- app_assoc.
    split; [|eauto].
    rewrite !forallb_app.
    now destruct (String.eqb (os args) "Linux"
                  && String.eqb (compiler args) "gcc"),
      (String.eqb (os args) "Windows").
  - rewrite logger_args_eq, base_cmake_args_flags, <- app_assoc.
    split; [|eauto].
    rewrite !forallb_app.
    now destruct (String.eqb (os args) "Linux"
                  && String.eqb (compiler args) "gcc").
Qed.

(** X10.  The arguments of each of the three dependencies start with the
    build type and the flags [-DBUILD_TESTS=OFF], [-DBUILD_SAMPLES=OFF]
    and [-DUSE_STD_FORMAT=ON], and none of them is empty, so that the
    filter of empty arguments drops nothing.  Every configure command
    of every run is therefore [cmake -B . -S ..] followed by these four
    flags and then the rest of the arguments. *)
Theorem every_configure_carries_the_common_flags (args : Args) :
  (forall name repo_url cmake_args,
     In (name, repo_url, cmake_args) (dependencies args) ->
     firstn 4 cmake_args = common_flags args
     /\ cmd_cmake cmake_args = ["cmake"; "-B"; "."; "-S"; ".."] ++ cmake_args)
  /\ (forall w new cmd dir r,
        trace (snd (main args w)) = trace w ++ new ->
        In (Spawn cmd dir r) new -> is_configure cmd ->
        exists rest,
          cmd = ["cmake"; "-B"; "."; "-S"; ".."] ++ common_flags args ++ rest).
Proof.
  assert (A : forall name repo_url cmake_args,
     In (name, repo_url, cmake_args) (dependencies args) ->
     firstn 4 cmake_args = common_flags args
     /\ cmd_cmake cmake_args = ["cmake"; "-B"; "."; "-S"; ".."] ++ cmake_args).
  { intros name url cargs Hd.
    destruct (dependency_args_shape _ _ _ _ Hd) as (T & rest & E).
    split.
    - rewrite E. reflexivity.
    - unfold cmd_cmake. now rewrite filter_truthy_all. }
  split; [exact A|].
  intros w new cmd dir r Hnew H Hc.
  destruct (configure_in_run _ _ _ _ _ _ Hnew H Hc)
    as (name & url & cargs & Hd & ->).
  destruct (A _ _ _ Hd) as [_ ->].
  destruct (dependency_args_shape _ _ _ _ Hd) as (_ & rest & ->).
  now exists rest.
Qed.

Lemma dependency_plan_spawn_dir (clone : bool)
  (name repo_url build_type : string) (cmake_args : list string)
  (workspace_dir : string) (cmd : list string) (dir : string)
  (r : proc_result) :
  In (Spawn cmd dir r)
     (dependency_plan clone name repo_url build_type cmake_args workspace_dir)
  ->
  (clone = true /\ cmd = clone_cmd repo_url name /\ dir = workspace_dir)
  \/ (dir = build_dir_of workspace_dir name
      /\ (cmd = cmd_cmake cmake_args
          \/ cmd = build_cmd build_type
          \/ cmd = install_cmd build_type)).
Proof.
  unfold dependency_plan, step_ok, running.
  destruct clone; cbn [app In];
    intros H; repeat (destruct H as [H|H]); try discriminate H;
    try contradiction; injection H as <- <- <-; auto 10.
Qed.

(** X11.  Each command of a setup runs where it should: [git clone]
    runs in the workspace directory, and only when [workspace/<name>]
    was missing as the setup started; the configure, build and install
    commands all run in [workspace/<name>/build]; and the setup runs no
    other command. *)
Theorem commands_run_in_their_directories
  (name repo_url install_dir build_type : string)
  (cmake_args : list string) (workspace_dir : string) (w : World)
  (new : list event) (cmd : list string) (dir : string) (r : proc_result) :
  trace (snd (setup_dependency name repo_url install_dir build_type
                cmake_args workspace_dir w)) = trace w ++ new ->
  In (Spawn cmd dir r) new ->
  (cmd = clone_cmd repo_url name /\ dir = workspace_dir
   /\ present (path_join workspace_dir name) w = false)
  \/ (dir = build_dir_of workspace_dir name
      /\ (cmd = cmd_cmake cmake_args
          \/ cmd = build_cmd build_type
          \/ cmd = install_cmd build_type)).
Proof.
  intros Hnew H.
  destruct (setup_dependency_traces name repo_url install_dir build_type
              cmake_args workspace_dir w) as (new' & Ht & Hf).
  assert (new' = new) as ->
    by (rewrite Hnew in Ht; now apply app_inv_head in Ht).
  destruct (follows_spawn _ _ _ _ _ _ Hf H) as [r' Hin].
  apply dependency_plan_spawn_dir in Hin as [(C & -> & ->)|Hin];
    [left | now right].
  repeat split. now apply negb_true_iff.
Qed.

Lemma count_spawns_app (l1 l2 : list event) :
  count_spawns (l1 ++ l2) = count_spawns l1 + count_spawns l2.
Proof. unfold count_spawns. now rewrite filter_app, length_app. Qed.

Lemma count_spawns_main_plan (args : Args) (workspace_dir : string)
  (clone1 clone2 clone3 : bool) (found : option string) :
  count_spawns (main_plan args workspace_dir clone1 clone2 clone3 found)
  = 9 + (if clone1 then 1 else 0) + (if clone2 then 1 else 0)
    + (if clone3 then 1 else 0).
Proof. now destruct clone1, clone2, clone3, found. Qed.

(** X12.  No run launches more than twelve processes, and a run that
    goes through has launched at least nine: configure, build and
    install for each dependency, and one clone for each dependency that
    was missing. *)
Theorem a_run_launches_at_most_twelve_processes (args : Args) (w : World)
  (new : list event) :
  trace (snd (main args w)) = trace w ++ new ->
  count_spawns new <= 12
  /\ (fst (main args w) = Ret tt -> 9 <= count_spawns new).
Proof.
  intros Hnew.
  destruct (main_follows _ _ _ Hnew) as (c1 & c2 & c3 & found & Hf).
  pose proof (count_spawns_main_plan args (cwd w) c1 c2 c3 found) as C.
  assert (B : count_spawns (main_plan args (cwd w) c1 c2 c3 found) <= 12)
    by (rewrite C; destruct c1, c2, c3; simpl; lia).
  destruct Hf as [[-> ->]|(done & rest & stop & Hp & -> & Hs)].
  - split; [exact B|]. intros _. rewrite C. lia.
  - split; [|intros Ho; now apply Stopped_not_ret in Hs].
    rewrite Hp in B. rewrite count_spawns_app in *.
    destruct Hs; cbn in *; lia.
Qed.

(** X13.  The patch step launches no process and never calls
    [sys.exit].  It prints its first line and after it lines only, and
    it touches no file but the one it found.  When it finds none, the
    file system is as it was.  When it finds one, every path that parts
    from that file names what it named before; the file itself is as it
    was when the file could not be opened or its bytes did not decode,
    and it is empty when the new text did not encode. *)
Theorem patch_step_runs_nothing_and_never_exits (install_dir : string)
  (is_windows : bool) (w : World) :
  let r := patch_thread_system_config install_dir is_windows w in
  spawned (snd r) = spawned w
  /\ (forall code, fst r <> Exit code)
  /\ (forall cmd n, fst r <> Raise (CalledProcessError cmd n))
  /\ (exists rest,
        trace (snd r)
        = trace w ++ Print "Patching thread_system-config.cmake..." :: rest
        /\ count_spawns rest = 0)
  /\ match find_config (walked install_dir w) with
     | Some (String c f) =>
         (forall q', diverges (resolve (String c f)) q' ->
                     lookup q' (fs (snd r)) = lookup q' (fs w))
         /\ ((exists e, fst r = Raise (OSError e))
             \/ fst r = Raise UnicodeDecodeError ->
             fs (snd r) = fs w)
         /\ (fst r = Raise UnicodeEncodeError ->
             bytes_at (resolve (String c f)) (fs (snd r)) = inr "")
     | _ => fst r = Ret tt /\ fs (snd r) = fs w
     end.
Proof.
  cbv zeta.
  destruct (find_config (walked install_dir w)) as [[|c f]|] eqn:F.
  1, 3: rewrite patch_not_found by auto; cbn [fst snd];
    (split; [reflexivity|]); (split; [discriminate|]);
    (split; [discriminate|]); (split; [|now split]);
    eexists; split;
    [unfold warned, emit; cbn [trace]; rewrite <- app_assoc;
     reflexivity | reflexivity].
  assert (T : forall v,
    trace v = trace (announced (String c f) w) ->
    exists rest,
      trace v
      = trace w ++ Print "Patching thread_system-config.cmake..." :: rest
      /\ count_spawns rest = 0).
  { intros v ->. eexists. split;
      [unfold announced, emit; cbn [trace]; rewrite <- app_assoc;
       reflexivity | reflexivity]. }
  destruct (patch_cases _ is_windows _ _ _ F)
    as [(e & B & ->)|[(b & B & D & ->)|[(b & r & o & B & D & N & O & ->)
       |(b & r & b' & t & B & D & N & S & ->)]]];
    cbn [fst snd fs emit set_fs spawned];
    (split; [reflexivity|]); (split; [discriminate|]);
    (split; [discriminate|]).
  - split; [now apply T|]. split; [reflexivity|].
    split; [reflexivity | discriminate].
  - split; [now apply T|]. split; [reflexivity|].
    split; [reflexivity | discriminate].
  - split; [now apply T|]. split; [|split].
    + intros q' Dv. exact (store_frame _ _ _ Dv _ _ O).
    + intros [[e H]|H]; discriminate H.
    + intros _.
      destruct (store_ok _ _ _ "" (bytes_at_inv _ _ _ B))
        as (t' & O' & L & _).
      rewrite O in O'. injection O' as <-. now apply bytes_at_file.
  - split; [|split; [|split]].
    + eexists. split;
        [unfold announced, emit; cbn [trace set_fs];
         rewrite <- !app_assoc; reflexivity | reflexivity].
    + intros q' Dv. exact (store_frame _ _ _ Dv _ _ S).
    + intros [[e H]|H]; discriminate H.
    + discriminate.
Qed.

End Script.

(* ================================================================= *)
(** * The properties at work on the POSIX host *)

Example patch_simple :
  patch_content "find_dependency(fmt)" = "# find_dependency(fmt)".
Proof. reflexivity. Qed.

Example patch_spaced :
  patch_content "  find_dependency ( fmt 9 REQUIRED) # x"
  = "  # find_dependency ( fmt 9 REQUIRED) # x".
Proof. reflexivity. Qed.

Example patch_other :
  patch_content "find_dependency(Threads)" = "find_dependency(Threads)".
Proof. reflexivity. Qed.

Example patch_config_text :
  patch_content config_text
  = ("include(CMakeFindDependencyMacro)" ++ LF
     ++ "# find_dependency (fmt 10 REQUIRED)" ++ LF
     ++ "find_dependency(Threads)" ++ LF)%string.
Proof. reflexivity. Qed.

Example posix_join_relative : posix_join "/ws" "build" = "/ws/build".
Proof. reflexivity. Qed.

Example posix_join_absolute : posix_join "/ws" "/opt" = "/opt".
Proof. reflexivity. Qed.

Example posix_resolve_dots :
  posix_resolve "/ws//common_system/./src/../build"
  = ["ws"; "common_system"; "build"].
Proof. reflexivity. Qed.

(** A full run on a populated workspace returns, and has patched the
    file it found. *)
Example full_run :
  let run :=
    main posix_join posix_resolve exn_text all_succeed
      ascii_codec ascii_codec LF linux_gcc
      (boot (disk stale_build [(config_name, File config_text)])) in
  fst run = Ret tt
  /\ bytes_at
       (posix_resolve config_path)
       (fs (snd run))
     = inr (patch_content config_text)
  /\ lookup (posix_resolve "/ws/common_system/build") (fs (snd run))
     = Some (Dir []).
Proof. vm_compute. auto. Qed.

(** C1, part two as the claim has it, fails: the sources of
    [thread_system] hold a file called [build]; the three processes of
    the run all return 0, and the run ends with status 1. *)
Lemma all_commands_succeed_yet_status_1 :
  let run :=
    main posix_join posix_resolve exn_text all_succeed
      ascii_codec ascii_codec LF linux_gcc
      (boot (disk (File "not a directory") [])) in
  (forall cmd dir r, In (Spawn cmd dir r) (trace (snd run)) -> r = Exited 0)
  /\ List.length (trace (snd run)) = 9
  /\ fst run = Raise (OSError NotADirectoryError)
  /\ exit_status (fst run) = 1%Z.
Proof.
  cbv zeta. split; [|vm_compute; repeat split].
  intros cmd dir r Hin. vm_compute in Hin.
  repeat (destruct Hin as [Hin|Hin]); try discriminate Hin;
    try contradiction; now injection Hin as _ _ <-.
Qed.

Lemma command_failure_is_fatal_witness :
  exit_status
    (fst (main posix_join posix_resolve exn_text (fails_at 1 2)
            ascii_codec ascii_codec LF linux_gcc
            (boot (disk stale_build [])))) = 1%Z.
Proof.
  pose (w := boot (disk stale_build [])).
  pose (new := trace (snd (main posix_join posix_resolve exn_text
                             (fails_at 1 2) ascii_codec ascii_codec LF
                             linux_gcc w))).
  destruct (command_failure_is_fatal posix_join posix_resolve exn_text
              (fails_at 1 2) ascii_codec ascii_codec LF linux_gcc w new
              eq_refl) as (_ & Failed & _).
  refine (proj1 (Failed (build_cmd "Release") "/ws/common_system/build"
                   2%Z _ _)).
  - vm_compute. do 4 right. left. reflexivity.
  - discriminate.
Defined.

Lemma missing_config_only_warns_witness :
  let w := boot (disk stale_build []) in
  let w1 :=
    snd (bind (setup_common posix_join posix_resolve exn_text all_succeed
                 linux_gcc "/ws")
           (fun _ => setup_thread posix_join posix_resolve exn_text
                       all_succeed linux_gcc "/ws") w) in
  patch_thread_system_config posix_join posix_resolve ascii_codec ascii_codec LF
    "/opt/thread_system_install" false w1 = (Ret tt, warned w1)
  /\ main posix_join posix_resolve exn_text all_succeed
       ascii_codec ascii_codec LF linux_gcc w
     = setup_logger posix_join posix_resolve exn_text all_succeed linux_gcc
         "/ws" (warned w1).
Proof.
  intros w w1.
  destruct (missing_config_only_warns posix_join posix_resolve exn_text
              all_succeed ascii_codec ascii_codec LF linux_gcc w w1)
    as (P & _ & _ & Main & _).
  - vm_compute. reflexivity.
  - vm_compute. reflexivity.
  - split; [exact P | exact Main].
Defined.

(** C3 as the claim has it fails.  A statement that runs over three
    lines has its first line commented and the other two left as they
    were; and a statement inside a match that starts before it gets no
    marker of its own. *)
Lemma statement_on_several_lines_is_not_commented_out :
  let m := statement LF "" (LF ++ " REQUIRED") in
  is_statement m
  /\ lines (patch_content (m ++ LF))
     = ["# find_dependency"; "(fmt"; " REQUIRED)"; ""]
  /\ is_statement "find_dependency(fmt)"
  /\ patch_content "find_dependency(fmt find_dependency(fmt)"
     = "# find_dependency(fmt find_dependency(fmt)".
Proof.
  cbv zeta. split; [|split; [|split]].
  - exists LF, "", (LF ++ " REQUIRED")%string. repeat split.
  - vm_compute. reflexivity.
  - exists "", "", "". repeat split.
  - vm_compute. reflexivity.
Qed.

Lemma statement_is_commented_out_witness :
  patch_content config_text
  = (("include(CMakeFindDependencyMacro)" ++ LF)
     ++ "# " ++ statement " " "" " 10 REQUIRED"
     ++ patch_content (LF ++ "find_dependency(Threads)" ++ LF))%string
  /\ lines (patch_content config_text)
     = ["include(CMakeFindDependencyMacro)";
        "# find_dependency (fmt 10 REQUIRED)";
        "find_dependency(Threads)"; ""]
  /\ (let w := boot (disk stale_build
                       [(config_name, File config_text_crlf)]) in
      bytes_at (posix_resolve config_path)
        (fs (snd (patch_thread_system_config posix_join posix_resolve
                    ascii_codec ascii_codec LF
                    "/opt/thread_system_install" false w)))
      = inr (patch_content config_text)).
Proof.
  destruct (statement_is_commented_out posix_join posix_resolve
              ascii_codec ascii_codec LF) as (Text & File & _).
  destruct (Text ("include(CMakeFindDependencyMacro)" ++ LF)%string
              (statement " " "" " 10 REQUIRED")
              (LF ++ "find_dependency(Threads)" ++ LF)%string) as [First _].
  { exists " ", "", " 10 REQUIRED". repeat split. }
  destruct First as [P L].
  { apply misses_spec. vm_compute. reflexivity. }
  split; [exact P|]. split; [exact (L eq_refl)|].
  intros w.
  refine (proj1 (proj2 (File "/opt/thread_system_install" false w
                          "/"%char (drop 1 config_path)
                          config_text_crlf config_text_crlf
                          (patch_content config_text) _ _ _ _))).
  all: vm_compute; reflexivity.
Defined.

Lemma include_flags_follow_os_witness :
  In "-DCMAKE_CXX_FLAGS=/I/opt/common_system_install/include"
     (thread_args posix_join windows_msvc)
  /\ In "-DCMAKE_CXX_FLAGS=-I/opt/common_system_install/include -I/opt/thread_system_install/include"
        (logger_args posix_join linux_gcc).
Proof.
  destruct (include_flags_follow_os posix_join posix_resolve exn_text
              all_succeed ascii_codec ascii_codec LF windows_msvc)
    as (Win & _ & _).
  destruct (include_flags_follow_os posix_join posix_resolve exn_text
              all_succeed ascii_codec ascii_codec LF linux_gcc)
    as (_ & Other & _).
  destruct (Win eq_refl) as [-> _].
  destruct Other as [_ ->]; [discriminate|].
  split; apply in_app_iff; right; vm_compute; tauto.
Defined.

Lemma logger_prefix_path_witness :
  In (Spawn
        (cmd_cmake (logger_args posix_join linux_gcc))
        "/ws/logger_system/build" (Exited 0))
     (trace (snd (main posix_join posix_resolve exn_text all_succeed
                    ascii_codec ascii_codec LF linux_gcc
                    (boot (disk stale_build []))))).
Proof.
  destruct (logger_prefix_path_lists_common_then_thread posix_join
              posix_resolve exn_text all_succeed ascii_codec ascii_codec LF
              linux_gcc) as (_ & _ & Run).
  apply (Run (boot (disk stale_build []))); vm_compute; reflexivity.
Defined.

Lemma dependencies_are_set_up_in_order_witness :
  (exists clone,
     firstn 8
       (trace (snd (main posix_join posix_resolve exn_text (fails_at 4 1)
                      ascii_codec ascii_codec LF linux_gcc
                      (boot (disk stale_build [])))))
     = dependency_plan posix_join clone "common_system" common_url
         "Release" (common_args posix_join linux_gcc) "/ws")
  /\ (let w := boot (disk stale_build [(config_name, File config_text)]) in
      exists w3,
        main posix_join posix_resolve exn_text all_succeed
          ascii_codec ascii_codec LF linux_gcc w
        = setup_logger posix_join posix_resolve exn_text all_succeed
            linux_gcc "/ws" w3
        /\ bytes_at (posix_resolve config_path) (fs w3)
           = inr ("include(CMakeFindDependencyMacro)" ++ LF
                  ++ "# find_dependency (fmt 10 REQUIRED)" ++ LF
                  ++ "find_dependency(Threads)" ++ LF)%string).
Proof.
  split.
  - pose (new := trace (snd (main posix_join posix_resolve exn_text
                               (fails_at 4 1) ascii_codec ascii_codec LF
                               linux_gcc (boot (disk stale_build []))))).
    destruct (dependencies_are_set_up_in_order posix_join posix_resolve
                exn_text (fails_at 4 1) ascii_codec ascii_codec LF
                linux_gcc (boot (disk stale_build [])) new eq_refl)
      as ((c1 & c2 & c3 & found & _ & _ & Thread & _) & _).
    exists c1. apply (Thread (firstn 8 new) (skipn 9 new)).
    vm_compute. reflexivity.
  - intros w.
    pose (new := trace (snd (main posix_join posix_resolve exn_text
                               all_succeed ascii_codec ascii_codec LF
                               linux_gcc w))).
    pose (w1 := snd (setup_common posix_join posix_resolve exn_text
                       all_succeed linux_gcc "/ws" w)).
    pose (w2 := snd (setup_thread posix_join posix_resolve exn_text
                       all_succeed linux_gcc "/ws" w1)).
    pose (w3 := snd (patch_thread_system_config posix_join posix_resolve
                       ascii_codec ascii_codec LF
                       "/opt/thread_system_install" false w2)).
    destruct (dependencies_are_set_up_in_order posix_join posix_resolve
                exn_text all_succeed ascii_codec ascii_codec LF
                linux_gcc w new eq_refl) as (_ & Hand).
    destruct (Hand (Ret tt) w1) as [_ H1]; [vm_compute; reflexivity|].
    destruct (H1 (Ret tt) w2 eq_refl) as [_ H2]; [vm_compute; reflexivity|].
    destruct (H2 (Ret tt) w3 eq_refl) as [_ H3]; [vm_compute; reflexivity|].
    destruct (H3 eq_refl) as [Main File].
    destruct (File "/"%char (drop 1 config_path))
      as (bytes & raw & bytes' & B & D & N & B');
      [vm_compute; reflexivity|].
    exists w3. split; [exact Main|].
    vm_compute in B. injection B as <-.
    vm_compute in D. injection D as <-.
    vm_compute in N. injection N as <-.
    exact B'.
Defined.

Lemma existing_source_is_not_cloned_witness :
  checkout posix_join posix_resolve exn_text all_succeed
    "common_system" common_url "/ws" (boot (disk stale_build []))
  = (Ret tt, boot (disk stale_build [])).
Proof.
  refine (proj1 (existing_source_is_not_cloned posix_join posix_resolve
                   exn_text all_succeed "common_system" common_url
                   "/opt/common_system_install" "Release"
                   (common_args posix_join linux_gcc) "/ws"
                   (boot (disk stale_build [])) _ eq_refl eq_refl)).
Defined.

(** C8 as the claim has it fails: the checkout step of [thread_system]
    returns, [build] is a file, and the build directory is neither
    removed nor created: [shutil.rmtree] raises and the setup ends. *)
Lemma build_path_taken_by_a_file :
  let w := boot (disk (File "not a directory") []) in
  let w1 := emit (Print "=== Setting up thread_system ===") w in
  checkout posix_join posix_resolve exn_text all_succeed
    "thread_system" thread_url "/ws" w1 = (Ret tt, w1)
  /\ make_build_dir posix_resolve "/ws/thread_system/build" w1
     = (Raise (OSError NotADirectoryError), w1)
  /\ setup_dependency posix_join posix_resolve exn_text all_succeed
       "thread_system" thread_url "/opt/thread_system_install" "Release"
       (thread_args posix_join linux_gcc) "/ws" w
     = (Raise (OSError NotADirectoryError), w1)
  /\ lookup (posix_resolve "/ws/thread_system/build") (fs w1)
     = Some (File "not a directory")
  /\ ~ (exists w2,
          make_build_dir posix_resolve "/ws/thread_system/build" w1
          = (Ret tt, w2)
          /\ lookup (posix_resolve "/ws/thread_system/build") (fs w2)
             = Some (Dir [])).
Proof.
  intros w w1.
  assert (R : make_build_dir posix_resolve "/ws/thread_system/build" w1
              = (Raise (OSError NotADirectoryError), w1))
    by (vm_compute; reflexivity).
  repeat split; try (vm_compute; reflexivity).
  intros (w2 & E & _). rewrite R in E. discriminate E.
Qed.

Lemma build_dir_is_recreated_witness :
  let w1 :=
    emit (Print "=== Setting up thread_system ===")
      (boot (disk stale_build [])) in
  exists t,
    make_build_dir posix_resolve "/ws/thread_system/build" w1
    = (Ret tt, set_fs t w1)
    /\ lookup (posix_resolve "/ws/thread_system/build") t = Some (Dir []).
Proof.
  intros w1.
  destruct (build_dir_is_recreated posix_join posix_resolve exn_text
              all_succeed "thread_system" thread_url
              "/opt/thread_system_install" "Release"
              (thread_args posix_join linux_gcc) "/ws"
              (boot (disk stale_build [])) w1 eq_refl) as [Ok _].
  destruct Ok as (t0 & t & _ & _ & L & M & _).
  - left. split; [discriminate|]. eexists. vm_compute. reflexivity.
  - exists t. split; [exact M | exact L].
Defined.

Lemma compiler_pinned_witness :
  In pin_c (common_args posix_join linux_gcc)
  /\ ~ In pin_c (logger_args posix_join windows_msvc).
Proof.
  destruct (compiler_pinned_for_linux_gcc_only posix_join posix_resolve
              exn_text all_succeed ascii_codec ascii_codec LF linux_gcc)
    as [Pin _].
  destruct (compiler_pinned_for_linux_gcc_only posix_join posix_resolve
              exn_text all_succeed ascii_codec ascii_codec LF windows_msvc)
    as [_ Plain].
  split.
  - refine (proj1 (proj1 (Pin (conj eq_refl eq_refl))
                     "common_system" common_url _ _)).
    left. reflexivity.
  - refine (proj1 (proj1 (Plain _) "logger_system" logger_url _ _)).
    + intros [H _]. discriminate H.
    + right. right. left. reflexivity.
Defined.

(** C10 as the claim has it fails: on a host whose line end is LF, a
    file that holds no statement and ends its line with CR LF is written
    back with LF. *)
Lemma file_without_statement_is_rewritten :
  let w := boot (disk stale_build [(config_name, File plain_text_crlf)]) in
  let run :=
    patch_thread_system_config posix_join posix_resolve
      ascii_codec ascii_codec LF "/opt/thread_system_install" false w in
  bytes_at (posix_resolve config_path) (fs w) = inr plain_text_crlf
  /\ ~ has_statement (universal_newlines plain_text_crlf)
  /\ fst run = Ret tt
  /\ bytes_at (posix_resolve config_path) (fs (snd run))
     = inr ("find_dependency(Threads)" ++ LF)%string
  /\ fs (snd run) <> fs w.
Proof.
  cbv zeta. split; [vm_compute; reflexivity|]. split.
  { apply no_match_no_statement, misses_everywhere.
    vm_compute. reflexivity. }
  split; [vm_compute; reflexivity|]. split; [vm_compute; reflexivity|].
  intros E. apply (f_equal (bytes_at (posix_resolve config_path))) in E.
  vm_compute in E. discriminate E.
Qed.

Lemma patch_preserves_the_rest_witness :
  patch_content ("find_dependency(Threads)" ++ LF)
  = ("find_dependency(Threads)" ++ LF)%string
  /\ (let w := boot (disk stale_build
                       [(config_name,
                         File ("find_dependency(Threads)" ++ LF))]) in
      fs (snd (patch_thread_system_config posix_join posix_resolve
                 ascii_codec ascii_codec LF
                 "/opt/thread_system_install" false w))
      = fs w).
Proof.
  destruct (proj1 (patch_preserves_the_rest posix_join posix_resolve
                     ascii_codec ascii_codec LF
                     ("find_dependency(Threads)" ++ LF))) as [P File].
  { apply no_match_no_statement, misses_everywhere. vm_compute. reflexivity. }
  split; [exact P|]. intros w.
  refine (proj2 (proj2 (File "/opt/thread_system_install" false w
                          "/"%char (drop 1 config_path)
                          ("find_dependency(Threads)" ++ LF)%string
                          ("find_dependency(Threads)" ++ LF)%string
                          _ _ _ _) eq_refl _ _)).
  all: vm_compute; reflexivity.
Defined.

(* ================================================================= *)
(** * The further properties at work *)

Example patched_twice :
  patch_content (patch_content "find_dependency(fmt)")
  = "# # find_dependency(fmt)".
Proof. reflexivity. Qed.

Example hits_config_text : hits config_text = 1.
Proof. reflexivity. Qed.

Lemma patching_again_changes_again_witness :
  has_statement (patch_content config_text)
  /\ String.length config_text + 4
     <= String.length (patch_content (patch_content config_text)).
Proof.
  destruct (patching_again_changes_again config_text) as (S & _ & L).
  - exists ("include(CMakeFindDependencyMacro)" ++ LF)%string,
      (statement " " "" " 10 REQUIRED"),
      (LF ++ "find_dependency(Threads)" ++ LF)%string.
    split; [|reflexivity].
    exists " ", "", " 10 REQUIRED". repeat split.
  - split; [exact S | exact L].
Defined.

Lemma build_dir_step_leaves_the_rest_witness :
  lookup ["ws"; "thread_system"; "CMakeLists.txt"]
    (fs (snd (make_build_dir posix_resolve "/ws/thread_system/build"
                (boot (disk stale_build [])))))
  = lookup ["ws"; "thread_system"; "CMakeLists.txt"]
      (fs (boot (disk stale_build []))).
Proof.
  refine (proj1 (build_dir_step_leaves_the_rest posix_resolve
                   "/ws/thread_system/build" (boot (disk stale_build []))
                   _ ["ws"; "thread_system"; "CMakeLists.txt"] _ _)).
  - vm_compute. reflexivity.
  - vm_compute. do 2 apply diverges_below. apply diverges_here.
    discriminate.
Defined.

Lemma patch_rewrites_only_the_file_witness :
  let w := boot (disk stale_build [(config_name, File config_text_crlf)]) in
  let w' :=
    snd (patch_thread_system_config posix_join posix_resolve
           ascii_codec ascii_codec LF "/opt/thread_system_install" false w) in
  lookup ["opt"; "thread_system_install"; "include"] (fs w')
  = lookup ["opt"; "thread_system_install"; "include"] (fs w)
  /\ spawned w' = spawned w.
Proof.
  intros w w'.
  destruct (patch_rewrites_only_the_file posix_join posix_resolve
              ascii_codec ascii_codec LF "/opt/thread_system_install" false
              w w' "/"%char (drop 1 config_path))
    as (_ & Frame & _ & Sp).
  - vm_compute. reflexivity.
  - vm_compute. reflexivity.
  - split; [|exact Sp]. apply Frame.
    vm_compute. do 2 apply diverges_below. apply diverges_here.
    discriminate.
Defined.

Lemma every_process_is_announced_witness :
  exists pre',
    firstn 2
      (trace (snd (main posix_join posix_resolve exn_text all_succeed
                     ascii_codec ascii_codec LF linux_gcc
                     (boot (disk stale_build [])))))
    = pre' ++ [running (cmd_cmake (common_args posix_join linux_gcc))].
Proof.
  pose (new := trace (snd (main posix_join posix_resolve exn_text
                             all_succeed ascii_codec ascii_codec LF
                             linux_gcc (boot (disk stale_build []))))).
  refine (every_process_is_announced posix_join posix_resolve exn_text
            all_succeed ascii_codec ascii_codec LF linux_gcc
            (boot (disk stale_build [])) new
            (firstn 2 new) (skipn 3 new)
            (cmd_cmake (common_args posix_join linux_gcc))
            "/ws/common_system/build" (Exited 0) eq_refl _).
  vm_compute. reflexivity.
Defined.

Lemma process_that_cannot_start_witness :
  exit_status
    (fst (main posix_join posix_resolve exn_text (missing_at 0)
            ascii_codec ascii_codec LF linux_gcc
            (boot (disk stale_build [])))) = 1%Z.
Proof.
  pose (new := trace (snd (main posix_join posix_resolve exn_text
                             (missing_at 0) ascii_codec ascii_codec LF
                             linux_gcc (boot (disk stale_build []))))).
  refine (proj1 (proj2 (process_that_cannot_start_is_uncaught posix_join
                          posix_resolve exn_text (missing_at 0)
                          ascii_codec ascii_codec LF linux_gcc
                          (boot (disk stale_build [])) new
                          (cmd_cmake (common_args posix_join linux_gcc))
                          "/ws/common_system/build" FileNotFoundError
                          eq_refl _))).
  vm_compute. do 2 right. left. reflexivity.
Defined.

Lemma run_ends_with_status_0_or_1_witness :
  exit_status
    (fst (main posix_join posix_resolve exn_text (fails_at 7 3)
            ascii_codec ascii_codec LF windows_msvc
            (boot (disk stale_build [])))) = 0%Z
  \/ exit_status
       (fst (main posix_join posix_resolve exn_text (fails_at 7 3)
               ascii_codec ascii_codec LF windows_msvc
               (boot (disk stale_build [])))) = 1%Z.
Proof.
  pose (new := trace (snd (main posix_join posix_resolve exn_text
                             (fails_at 7 3) ascii_codec ascii_codec LF
                             windows_msvc (boot (disk stale_build []))))).
  exact (proj1 (run_ends_with_status_0_or_1 posix_join posix_resolve
                  exn_text (fails_at 7 3) ascii_codec ascii_codec LF
                  windows_msvc (boot (disk stale_build [])) new eq_refl)).
Defined.

Lemma commands_run_in_their_directories_witness :
  (clone_cmd common_url "common_system" = clone_cmd common_url "common_system"
   /\ "/ws" = "/ws"
   /\ present posix_resolve (posix_join "/ws" "common_system")
        (boot (Dir [("ws", Dir [])])) = false)
  \/ ("/ws" = build_dir_of posix_join "/ws" "common_system"
      /\ (clone_cmd common_url "common_system"
          = cmd_cmake (common_args posix_join linux_gcc)
          \/ clone_cmd common_url "common_system" = build_cmd "Release"
          \/ clone_cmd common_url "common_system" = install_cmd "Release")).
Proof.
  pose (w := boot (Dir [("ws", Dir [])])).
  pose (new := trace (snd (setup_dependency posix_join posix_resolve
                             exn_text all_succeed "common_system" common_url
                             "/opt/common_system_install" "Release"
                             (common_args posix_join linux_gcc) "/ws" w))).
  refine (commands_run_in_their_directories posix_join posix_resolve
            exn_text all_succeed "common_system" common_url
            "/opt/common_system_install" "Release"
            (common_args posix_join linux_gcc) "/ws" w new
            (clone_cmd common_url "common_system") "/ws" (Exited 0)
            eq_refl _).
  vm_compute. do 2 right. left. reflexivity.
Defined.

Lemma a_run_launches_at_most_twelve_processes_witness :
  count_spawns
    (trace (snd (main posix_join posix_resolve exn_text all_succeed
                   ascii_codec ascii_codec LF linux_gcc
                   (boot (Dir [("ws", Dir [])])))))
  <= 12.
Proof.
  pose (new := trace (snd (main posix_join posix_resolve exn_text
                             all_succeed ascii_codec ascii_codec LF
                             linux_gcc (boot (Dir [("ws", Dir [])]))))).
  exact (proj1 (a_run_launches_at_most_twelve_processes posix_join
                  posix_resolve exn_text all_succeed
                  ascii_codec ascii_codec LF linux_gcc
                  (boot (Dir [("ws", Dir [])])) new eq_refl)).
Defined.

(** Bytes that do not decode end the run in the patch step, with the
    file as it was. *)
Example undecodable_config_ends_the_run :
  let w := boot (disk stale_build [(config_name, File undecodable)]) in
  let run :=
    main posix_join posix_resolve exn_text all_succeed
      ascii_codec ascii_codec LF linux_gcc w in
  fst run = Raise UnicodeDecodeError
  /\ exit_status (fst run) = 1%Z
  /\ bytes_at (posix_resolve config_path) (fs (snd run)) = inr undecodable
  /\ count_spawns (trace (snd run)) = 6.
Proof. vm_compute. repeat split. Qed.

Lemma patch_step_runs_nothing_witness :
  let w := boot (disk stale_build [(config_name, File undecodable)]) in
  fs (snd (patch_thread_system_config posix_join posix_resolve
             ascii_codec ascii_codec LF "/opt/thread_system_install" false w))
  = fs w.
Proof.
  intros w.
  destruct (patch_step_runs_nothing_and_never_exits posix_join posix_resolve
              ascii_codec ascii_codec LF "/opt/thread_system_install"
              false w) as (_ & _ & _ & _ & Found).
  change (find_config posix_join
            (walked posix_join posix_resolve "/opt/thread_system_install" w))
    with (Some config_path) in Found.
  cbv iota beta in Found.
  destruct Found as (_ & Same & _). apply Same. right.
  vm_compute. reflexivity.
Defined.
